(** * rpi-boot: the MBR partition scan ([mbr.c]) and its block-device layer

    A shallow embedding of [read_mbr] and [mbr_read].  Integers are [Z]
    with the wrap-around of the C types written out, the sector is a list
    of bytes, C strings are [string]s (the characters before the
    terminator), and the calls that leave the file ([block_read], a
    device's [read] pointer, [fat_init], [ext2_init], [vfs_register],
    [printf]) are effects of a small monad that threads the state of the
    outside world and collects the calls made.  The heap of [malloc]
    comes in where a buffer is overrun: what such a buffer reads as is
    left to the allocator. *)

From Stdlib Require Import ZArith List String Ascii Bool Lia Sorted.
From Stdlib.Strings Require Import Byte.
Import ListNotations.
Open Scope Z_scope.

(** ** Machine integers and the sector buffer *)

(** Conversion to [uint8_t]. *)
Definition to_u8 (z : Z) : Z := z mod 256.

(** Conversion to [uint32_t]. *)
Definition to_u32 (z : Z) : Z := z mod 2 ^ 32.

(** [a + b] on two [uint32_t] operands. *)
Definition add32 (a b : Z) : Z := to_u32 (a + b).

Definition byte_val (b : byte) : Z := Z.of_N (Byte.to_N b).

(** [block_0[k]] for a [uint8_t *block_0]. *)
Definition sector_byte (block_0 : list byte) (k : Z) : Z :=
  byte_val (nth (Z.to_nat k) block_0 x00).

(** Modelled from the spec: [read_word] of util.h, which mbr.c includes
    and whose text is missing.  The spec gives the two fields it decodes as
    "4 bytes, little-endian unsigned"; the four bytes are combined by
    shifts and bitwise or into a [uint32_t]. *)
Definition read_word (buf : list byte) (offset : Z) : Z :=
  let b0 := sector_byte buf (offset + 0) in
  let b1 := sector_byte buf (offset + 1) in
  let b2 := sector_byte buf (offset + 2) in
  let b3 := sector_byte buf (offset + 3) in
  to_u32 (Z.lor b0 (Z.lor (Z.shiftl b1 8)
                          (Z.lor (Z.shiftl b2 16) (Z.shiftl b3 24)))).

(** ** Structures *)

(** [struct fs] of fs.h.  The back pointer to the device is kept as the
    device's name; the four function pointers belong to the filesystem
    drivers and play no part in the scan. *)
Record fs : Type := mk_fs {
  fs_parent : string;
  fs_name : string
}.

(** The fields of [struct block_device] that mbr.c touches.  The [read]
    pointer is not a field of the record: it is fixed by the constructor of
    [device] below. *)
Record block_device : Type := mk_block_device {
  driver_name : string;
  device_name : string;
  device_id : list Z;
  dev_id_len : Z;
  block_size : Z;
  bd_fs : option fs
}.

Definition set_fs (bd : block_device) (f : option fs) : block_device :=
  {| driver_name := driver_name bd;
     device_name := device_name bd;
     device_id := device_id bd;
     dev_id_len := dev_id_len bd;
     block_size := block_size bd;
     bd_fs := f |}.

(** The text of the [printf] calls, one constructor for each format string
    of the build without MBR_DEBUG. *)
Inductive message : Type :=
| msg_invalid_parent
| msg_block_read_failed (ret : Z)
| msg_short_read (name : string) (ret : Z)
| msg_no_signature (name : string) (b0 b1 : Z)
| msg_found_mbr (name : string)
| msg_found_total (cur_p : Z)
| msg_block_size_differs (bs parent_bs : Z).

Section Mbr.

(** The state of everything outside mbr.c: the disks, the drivers, the VFS. *)
Context {W : Type}.

(** What a device's [read] pointer does: from the buffer, the size and the
    block index to the [int] returned and the buffer afterwards. *)
Definition read_fn : Type := list byte -> Z -> Z -> W -> (Z * list byte) * W.

(** A [struct block_device *].  It points either to a device of another
    driver, whose [read] is that driver's, or to a [struct mbr_block_dev],
    whose [read] is [mbr_read] (set when [read_mbr] builds it). *)
Inductive device : Type :=
| extern_dev (bd : block_device) (read : read_fn)
| mbr_dev (bd : block_device) (parent : device)
          (part_no : Z) (start_block : Z) (blocks : Z) (part_id : Z).

Definition dev_bd (d : device) : block_device :=
  match d with
  | extern_dev bd _ => bd
  | mbr_dev bd _ _ _ _ _ => bd
  end.

Definition dev_set_fs (d : device) (f : option fs) : device :=
  match d with
  | extern_dev bd r => extern_dev (set_fs bd f) r
  | mbr_dev bd p n s b t => mbr_dev (set_fs bd f) p n s b t
  end.

(** The calls that leave mbr.c, in the order they are made. *)
Inductive event : Type :=
| ev_printf (m : message)
| ev_block_read (dev : device) (buf_size : Z) (block : Z)
| ev_read (dev : device) (buf_size : Z) (block : Z)
| ev_fat_init (dev : device)
| ev_ext2_init (dev : device)
| ev_vfs_register (f : fs).

(** ** The monad: world state in, value, world state and calls out *)

Record outcome (A : Type) : Type := mk_outcome {
  value : A;
  final : W;
  emitted : list event
}.
Arguments mk_outcome {A}.
Arguments value {A}.
Arguments final {A}.
Arguments emitted {A}.

Definition M (A : Type) : Type := W -> outcome A.

Definition ret {A : Type} (a : A) : M A :=
  fun w => mk_outcome a w [].

Definition bind {A B : Type} (m : M A) (k : A -> M B) : M B :=
  fun w =>
    let o := m w in
    let o' := k (value o) (final o) in
    mk_outcome (value o') (final o') (emitted o ++ emitted o').

Definition emit (e : event) : M unit :=
  fun w => mk_outcome tt w [e].

Definition extern {A : Type} (f : W -> A * W) : M A :=
  fun w => mk_outcome (fst (f w)) (snd (f w)) [].

Definition printf (m : message) : M unit := emit (ev_printf m).

Notation "x <- m ;; k" := (bind m (fun x => k))
  (at level 61, m at next level, right associativity).
Notation "m ;; k" := (bind m (fun _ => k))
  (at level 61, right associativity).

(** ** The collaborators *)

(** [block_read] of block.c, [fat_init], [ext2_init] and [vfs_register].
    [block_read] is given the device, the size and the block; its result
    is the [int] it returns and what the freshly allocated buffer holds
    afterwards.  An initializer is given the device and the address of its
    [fs] field, which holds a null pointer; its result is the [int] it
    returns and what the field holds afterwards.  Whatever else a
    collaborator does (an initializer reads through the device it is
    given) is part of its effect on the world.

    [overrun_string] stands for the heap of [malloc]: what a buffer reads
    as, as a C string, once stores have run past its end, from the size
    that was asked for ([None] when that size is not defined either) and
    the characters stored.  It is a matter of the allocator, of what lies
    behind the buffer and of what is stored there later. *)
Class Collaborators : Type := {
  block_read : device -> Z -> Z -> W -> (Z * list byte) * W;
  fat_init : device -> W -> (Z * option fs) * W;
  ext2_init : device -> W -> (Z * option fs) * W;
  vfs_register : fs -> W -> Z * W;
  overrun_string : option Z -> string -> string
}.

Context {ext : Collaborators}.

(** ** [mbr_read] *)

(** The body of [mbr_read], over the call [parent->read(parent, ...)]. *)
Definition mbr_read_body
    (call_parent : list byte -> Z -> Z -> M (Z * list byte))
    (bd : block_device) (parent : device) (start_block : Z)
    (buf : list byte) (buf_size : Z) (starting_block : Z)
  : M (Z * list byte) :=
  if negb (block_size bd =? block_size (dev_bd parent)) then
    printf (msg_block_size_differs (block_size bd)
                                   (block_size (dev_bd parent)));;
    ret (-1, buf)
  else
    call_parent buf buf_size (add32 starting_block start_block).

(** [dev->read(dev, buf, buf_size, block)]: the call is recorded, then the
    function behind the pointer runs. *)
Fixpoint call_read (dev : device) (buf : list byte) (buf_size : Z)
    (block : Z) : M (Z * list byte) :=
  emit (ev_read dev buf_size block);;
  match dev with
  | extern_dev _ read => extern (read buf buf_size block)
  | mbr_dev bd parent _ start_block _ _ =>
      mbr_read_body (call_read parent) bd parent start_block
                    buf buf_size block
  end.

(** [mbr_read(dev, buf, buf_size, starting_block)] for a [dev] that points
    to a [struct mbr_block_dev]. *)
Definition mbr_read (bd : block_device) (parent : device) (start_block : Z)
    (buf : list byte) (buf_size : Z) (starting_block : Z)
  : M (Z * list byte) :=
  mbr_read_body (call_read parent) bd parent start_block
                buf buf_size starting_block.

(** ** [read_mbr] *)

(** [strlen(s + k)] for a C string [s]: the number of characters after
    the first [k].  When [s] has fewer than [k] characters the pointer is
    past the terminator and [strlen] counts bytes that are not the
    string's: [None]. *)
Definition strlen_from (s : string) (k : nat) : option Z :=
  if (k <=? String.length s)%nat
  then Some (Z.of_nat (String.length s - k))
  else None.

(** The size asked of [malloc] for [dev_name]:
    [strlen(parent->device_name + 2)]. *)
Definition dev_name_request (parent_name : string) : option Z :=
  strlen_from parent_name 2.

(** The characters stored at [dev_name]: the parent's name is copied, then
    ['_'] and ['0' + i] are stored behind it. *)
Definition dev_name_stored (parent_name : string) (i : Z) : string :=
  parent_name ++
  String "_" (String (ascii_of_N (Z.to_N (to_u8 (48 + i)))) EmptyString).

(** The bytes the stores reach: the parent's name, two characters and the
    terminator, the last of them at index [strlen(parent->device_name) + 2]. *)
Definition dev_name_bytes (parent_name : string) : Z :=
  Z.of_nat (String.length parent_name) + 3.

(** The stores stay inside the buffer asked for. *)
Definition dev_name_fits (parent_name : string) : bool :=
  match dev_name_request parent_name with
  | Some size => dev_name_bytes parent_name <=? size
  | None => false
  end.

(** The name a new device has: the characters stored when they fit the
    buffer, and otherwise what the heap makes of them.  The run of
    [read_mbr] is followed as if stores past the buffer did no other
    harm. *)
Definition make_dev_name (parent_name : string) (i : Z) : string :=
  if dev_name_fits parent_name
  then dev_name_stored parent_name i
  else overrun_string (dev_name_request parent_name)
                      (dev_name_stored parent_name i).

(** The [struct mbr_block_dev] filled in for table slot [i]; the [memset]
    leaves its [fs] field null. *)
Definition new_partition (parent : device) (block_0 : list byte) (i : Z)
  : device :=
  let p_offset := 0x1be + i * 0x10 in
  mbr_dev
    {| driver_name := "mbr";
       device_name := make_dev_name (device_name (dev_bd parent)) i;
       device_id := [to_u8 i];
       dev_id_len := 1;
       block_size := 512;
       bd_fs := None |}
    parent
    i
    (read_word block_0 (p_offset + 8))
    (read_word block_0 (p_offset + 12))
    (sector_byte block_0 (p_offset + 4)).

(** The [switch] on [d->part_id]: the value is what [d->bd.fs] holds
    afterwards.  The [int] an initializer returns is dropped. *)
Definition bind_driver (d : device) (part_id : Z) : M (option fs) :=
  match part_id with
  | 1 | 4 | 6 | 0xb | 0xc | 0xe | 0x11 | 0x14 | 0x1b | 0x1c | 0x1e =>
      emit (ev_fat_init d);;
      r <- extern (fat_init d);;
      ret (snd r)
  | 0x83 =>
      emit (ev_ext2_init d);;
      r <- extern (ext2_init d);;
      ret (snd r)
  | _ => ret None
  end.

(** [if(d->bd.fs) vfs_register(d->bd.fs);] *)
Definition register_fs (f : option fs) : M unit :=
  match f with
  | Some x => emit (ev_vfs_register x);; _ <- extern (vfs_register x);; ret tt
  | None => ret tt
  end.

(** [parts[k] = d] on the array of four pointers; a slot that was never
    stored to is [None]. *)
Fixpoint store_slot (parts : list (option device)) (k : nat) (d : device)
  : list (option device) :=
  match parts, k with
  | [], _ => []
  | _ :: rest, O => Some d :: rest
  | x :: rest, S k' => x :: store_slot rest k' d
  end.

(** One turn of the loop over the table.  [parts] holds pointers, so the
    slot stored to before the [switch] shows the [fs] field as the
    initializer left it: the slot is stored to again once it is known. *)
Definition load_partition (parent : device) (block_0 : list byte) (i : Z)
    (st : list (option device) * Z) : M (list (option device) * Z) :=
  let '(parts, cur_p) := st in
  let p_offset := 0x1be + i * 0x10 in
  if negb (sector_byte block_0 (p_offset + 4) =? 0x00) then
    let d := new_partition parent block_0 i in
    let parts1 := store_slot parts (Z.to_nat cur_p) d in
    let cur_p1 := cur_p + 1 in
    f <- bind_driver d (sector_byte block_0 (p_offset + 4));;
    register_fs f;;
    ret (store_slot parts1 (Z.to_nat (cur_p1 - 1)) (dev_set_fs d f), cur_p1)
  else
    ret (parts, cur_p).

(** [for(int i = lo; i < lo + n; i++) body]. *)
Fixpoint for_range {S : Type} (n : nat) (i : Z) (body : Z -> S -> M S)
    (s : S) : M S :=
  match n with
  | O => ret s
  | Datatypes.S n' => s' <- body i s;; for_range n' (i + 1) body s'
  end.

(** The caller's variables behind [partitions] and [part_count]. *)
Definition out_params : Type := (list (option device) * Z)%type.

(** [read_mbr(parent, partitions, part_count)]: the [int] returned and the
    two variables afterwards.  [parent = None] is the null pointer. *)
Definition read_mbr (parent : option device) (outs : out_params)
  : M (Z * out_params) :=
  match parent with
  | None =>
      printf msg_invalid_parent;;
      ret (-1, outs)
  | Some p =>
      let name := device_name (dev_bd p) in
      emit (ev_block_read p 512 0);;
      r <- extern (block_read p 512 0);;
      let ret_ := fst r in
      let block_0 := snd r in
      if ret_ <? 0 then
        printf (msg_block_read_failed ret_);;
        ret (ret_, outs)
      else if negb (ret_ =? 512) then
        printf (msg_short_read name ret_);;
        ret (-1, outs)
      else if negb (sector_byte block_0 0x1fe =? 0x55)
              || negb (sector_byte block_0 0x1ff =? 0xaa) then
        printf (msg_no_signature name (sector_byte block_0 0x1fe)
                                 (sector_byte block_0 0x1ff));;
        ret (-1, outs)
      else
        printf (msg_found_mbr name);;
        st <- for_range 4 0 (load_partition p block_0) (repeat None 4, 0);;
        printf (msg_found_total (snd st));;
        ret (0, st)
  end.

(** ** The spec's vocabulary, for the statements below *)

(** Byte offset of table entry [i]: [0x1BE + 16 i]. *)
Definition entry_offset (i : Z) : Z := 0x1BE + 16 * i.

(** Four bytes from offset [k] on, read as a little-endian unsigned
    number. *)
Definition le32 (sector : list byte) (k : Z) : Z :=
  sector_byte sector k
  + 256 * sector_byte sector (k + 1)
  + 65536 * sector_byte sector (k + 2)
  + 16777216 * sector_byte sector (k + 3).

Definition type_code (sector : list byte) (i : Z) : Z :=
  sector_byte sector (entry_offset i + 4).

(** An entry is active iff its type code is not zero. *)
Definition active (sector : list byte) (i : Z) : bool :=
  negb (type_code sector i =? 0).

(** Bytes 0x1FE and 0x1FF hold 0x55 and 0xAA. *)
Definition has_signature (sector : list byte) : bool :=
  (sector_byte sector 0x1FE =? 0x55) && (sector_byte sector 0x1FF =? 0xAA).

(** The slots of the table, in on-disk order, and the active ones. *)
Definition slots : list Z := [0; 1; 2; 3].

Definition active_slots (sector : list byte) : list Z :=
  filter (active sector) slots.

(** The driver table of the spec, section 4.3. *)
Inductive driver : Type := FatDriver | Ext2Driver | NoDriver.

Definition fat_codes : list Z :=
  [0x01; 0x04; 0x06; 0x0B; 0x0C; 0x0E; 0x11; 0x14; 0x1B; 0x1C; 0x1E].

Definition table_driver (code : Z) : driver :=
  if existsb (Z.eqb code) fat_codes then FatDriver
  else if code =? 0x83 then Ext2Driver
  else NoDriver.

(** The fields a [struct mbr_block_dev] adds to its [bd] and [parent]:
    [part_no], [start_block], [blocks], [part_id]. *)
Definition mbr_fields (d : device) : option (Z * Z * Z * Z) :=
  match d with
  | extern_dev _ _ => None
  | mbr_dev _ _ n s b t => Some (n, s, b, t)
  end.

(** The calls one active slot gives rise to: the initializer its type code
    selects, on the device as built, then the registration of the
    filesystem if the device has one afterwards. *)
Definition init_call (d : device) (code : Z) : list event :=
  match table_driver code with
  | FatDriver => [ev_fat_init d]
  | Ext2Driver => [ev_ext2_init d]
  | NoDriver => []
  end.

Definition register_call (f : option fs) : list event :=
  match f with
  | Some x => [ev_vfs_register x]
  | None => []
  end.

Definition slot_calls (parent : device) (sector : list byte)
    (x : Z * option fs) : list event :=
  init_call (new_partition parent sector (fst x)) (type_code sector (fst x))
  ++ register_call (snd x).

(** The device of slot [fst x] once its [fs] field holds [snd x]. *)
Definition bound_partition (parent : device) (sector : list byte)
    (x : Z * option fs) : device :=
  dev_set_fs (new_partition parent sector (fst x)) (snd x).

(** An initializer call or a registration. *)
Definition is_binding_call (e : event) : bool :=
  match e with
  | ev_fat_init _ | ev_ext2_init _ | ev_vfs_register _ => true
  | _ => false
  end.

Definition is_register_call (e : event) : bool :=
  match e with
  | ev_vfs_register _ => true
  | _ => false
  end.

(** A call of a device's [read] pointer or of [block_read]. *)
Definition is_read_call (e : event) : bool :=
  match e with
  | ev_read _ _ _ | ev_block_read _ _ _ => true
  | _ => false
  end.

(** The inputs on which the scan gives up: no parent, a negative or a
    wrong count from [block_read], or no signature in what was read. *)
Definition scan_fails (parent : option device) (w : W) : Prop :=
  match parent with
  | None => True
  | Some p =>
      let r := fst (block_read p 512 0 w) in
      fst r < 0 \/ fst r <> 512 \/ has_signature (snd r) = false
  end.

(** The first [k] slots. *)
Definition slots_upto (k : nat) : list Z := map Z.of_nat (seq 0 k).

(** What [d->bd.fs] may hold after the [switch]: the outcome of the
    binding step in some state of the world. *)
Definition bound_by (parent : device) (sector : list byte)
    (x : Z * option fs) : Prop :=
  exists w : W,
    snd x = value (bind_driver (new_partition parent sector (fst x))
                               (type_code sector (fst x)) w).

(** The state of the loop after [k] turns, and the calls made so far: the
    active slots among the first [k], each with the filesystem its device
    ended up with. *)
Definition scan_inv (parent : device) (sector : list byte) (k : nat)
    (st : list (option device) * Z) (evs : list event) : Prop :=
  exists fsl : list (option fs),
    let act := filter (active sector) (slots_upto k) in
    List.length fsl = List.length act
    /\ st = (map Some (map (bound_partition parent sector) (combine act fsl))
             ++ repeat None (4 - List.length act),
             Z.of_nat (List.length act))
    /\ evs = flat_map (slot_calls parent sector) (combine act fsl)
    /\ Forall (bound_by parent sector) (combine act fsl).

(** ** Stacks of partitions and the devices of a result *)

(** The device of another driver at the bottom of a stack of partition
    devices. *)
Fixpoint root_device (d : device) : device :=
  match d with
  | extern_dev _ _ => d
  | mbr_dev _ parent _ _ _ _ => root_device parent
  end.

(** The [start_block]s of the layers of a stack, added up. *)
Fixpoint stack_start (d : device) : Z :=
  match d with
  | extern_dev _ _ => 0
  | mbr_dev _ parent _ start_block _ _ => start_block + stack_start parent
  end.

(** Every partition device of the stack has the block size of the device
    under it. *)
Fixpoint block_sizes_agree (d : device) : bool :=
  match d with
  | extern_dev _ _ => true
  | mbr_dev bd parent _ _ _ _ =>
      (block_size bd =? block_size (dev_bd parent))
      && block_sizes_agree parent
  end.

(** A call of the [read] of a device of another driver. *)
Definition is_extern_read (e : event) : bool :=
  match e with
  | ev_read (extern_dev _ _) _ _ => true
  | _ => false
  end.

(** The devices an array of pointers holds, the slots never stored to
    left out. *)
Definition devices_of (parts : list (option device)) : list device :=
  flat_map (fun slot => match slot with
                        | Some d => [d]
                        | None => []
                        end) parts.

(** The device an initializer is called on. *)
Definition init_target (e : event) : list device :=
  match e with
  | ev_fat_init d | ev_ext2_init d => [d]
  | _ => []
  end.

(** The table has an initializer for the [part_id] of a partition
    device. *)
Definition has_initializer (d : device) : bool :=
  match d with
  | extern_dev _ _ => false
  | mbr_dev _ _ _ _ _ part_id =>
      match table_driver part_id with
      | NoDriver => false
      | _ => true
      end
  end.

(** The binding calls made for a partition device, read off the device as
    the scan returns it: the initializer for its [part_id] on the device
    with a null [fs], then the registration of the filesystem it holds. *)
Definition binding_calls_of (d : device) : list event :=
  match d with
  | extern_dev _ _ => []
  | mbr_dev _ _ _ _ _ part_id =>
      init_call (dev_set_fs d None) part_id
      ++ register_call (bd_fs (dev_bd d))
  end.

End Mbr.

Arguments read_fn W : clear implicits.
Arguments device W : clear implicits.
Arguments event W : clear implicits.
Arguments outcome W A : clear implicits.
Arguments M W A : clear implicits.
Arguments out_params W : clear implicits.
Arguments Collaborators W : clear implicits.
Arguments mk_outcome {W A} value final emitted.
Arguments value {W A} o.
Arguments final {W A} o.
Arguments emitted {W A} o.

Notation "x <- m ;; k" := (bind m (fun x => k))
  (at level 61, m at next level, right associativity).
Notation "m ;; k" := (bind m (fun _ => k))
  (at level 61, right associativity).

(** ** A disk to run the scan on *)

(** One 16-byte table entry: type code at byte 4, first block at bytes
    8 to 11, count at bytes 12 to 15. *)
Definition table_entry (code s0 s1 s2 s3 c0 c1 c2 c3 : byte) : list byte :=
  [x00; x00; x00; x00; code; x00; x00; x00; s0; s1; s2; s3; c0; c1; c2; c3].

Definition empty_entry : list byte := repeat x00 16.

Definition boot_sector (e0 e1 e2 e3 : list byte) (sig0 sig1 : byte)
  : list byte :=
  repeat x00 446 ++ e0 ++ e1 ++ e2 ++ e3 ++ [sig0; sig1].

(** Entry 0 of type 0x83 from block 2048 on, 204800 blocks long; the other
    entries empty. *)
Definition sector_ext2 : list byte :=
  boot_sector (table_entry x83 x00 x08 x00 x00 x00 x20 x03 x00)
              empty_entry empty_entry empty_entry x55 xaa.

(** Entry 1 of type 0x0C and entry 3 of type 0x07, which no driver
    claims. *)
Definition sector_fat_other : list byte :=
  boot_sector empty_entry
              (table_entry x0c x00 x20 x00 x00 x00 x00 x10 x00)
              empty_entry
              (table_entry x07 x00 x20 x10 x00 x00 x00 x20 x00)
              x55 xaa.

(** Four empty entries under a valid signature. *)
Definition sector_empty : list byte :=
  boot_sector empty_entry empty_entry empty_entry empty_entry x55 xaa.

(** The first sector with its signature wiped. *)
Definition sector_unsigned : list byte :=
  boot_sector (table_entry x83 x00 x08 x00 x00 x00 x20 x03 x00)
              empty_entry empty_entry empty_entry x00 x00.

(** A parent of another driver; its [read] fills nothing in and reports
    [buf_size] bytes.  The world is the number of reads served. *)
Definition disk (name : string) (bs : Z) : device nat :=
  extern_dev
    {| driver_name := "emmc"; device_name := name; device_id := [];
       dev_id_len := 0; block_size := bs; bd_fs := None |}
    (fun buf buf_size block w => ((buf_size, buf), Datatypes.S w)).

Definition sda : device nat := disk "sda" 512.

(** A parent with 4096-byte blocks. *)
Definition sdb : device nat := disk "sdb" 4096.

(** [block_read] handing out a fixed answer. *)
Definition block_read_gives (r : Z) (sector : list byte)
  : device nat -> Z -> Z -> nat -> (Z * list byte) * nat :=
  fun _ _ _ w => ((r, sector), Datatypes.S w).

Definition fat_fs : fs := {| fs_parent := "sda_1"; fs_name := "fat32" |}.

Definition fat_init_ok : device nat -> nat -> (Z * option fs) * nat :=
  fun _ w => ((0, Some fat_fs), w).

Definition ext2_init_fails
  : device nat -> nat -> (Z * option fs) * nat :=
  fun _ w => ((-1, None), w).

Definition vfs_register_ok : fs -> nat -> Z * nat := fun _ w => (0, w).

(** A heap with room to spare behind every buffer: what was stored reads
    back. *)
Definition roomy_heap (request : option Z) (stored : string) : string :=
  stored.

(** The bytes a buffer really has with an allocator that hands out chunks
    in steps of 16 bytes, 24 usable bytes at least, as glibc's does on
    x86-64. *)
Definition usable_size (request : Z) : Z :=
  Z.max 24 ((request + 23) / 16 * 16 - 8).

(** A heap of such chunks, each followed by the size word of the next,
    which is 0x21, the character "!", once the next [malloc(1)] has taken
    it: a name that does not leave room for its terminator reads as the
    characters that fit, then "!". *)
Definition chunked_heap (request : option Z) (stored : string) : string :=
  match request with
  | Some size =>
      if Z.of_nat (String.length stored) <? usable_size size
      then stored
      else (substring 0 (Z.to_nat (usable_size size)) stored ++ "!")%string
  | None => stored
  end.

Definition ext2_fs : fs := {| fs_parent := "sda_0"; fs_name := "ext2" |}.

(** An [ext2_init] that stores a filesystem and still returns -1. *)
Definition ext2_init_binds_and_fails
  : device nat -> nat -> (Z * option fs) * nat :=
  fun _ w => ((-1, Some ext2_fs), w).

(** The collaborators of the runs below: block 0 reads as [sector] with
    count [r], [fat_init] succeeds and [ext2_init] fails. *)
Definition collaborators (r : Z) (sector : list byte) : Collaborators nat :=
  {| block_read := block_read_gives r sector;
     fat_init := fat_init_ok;
     ext2_init := ext2_init_fails;
     vfs_register := vfs_register_ok;
     overrun_string := roomy_heap |}.

(** The same on the heap of chunks. *)
Definition collaborators_chunked (r : Z) (sector : list byte)
  : Collaborators nat :=
  {| block_read := block_read_gives r sector;
     fat_init := fat_init_ok;
     ext2_init := ext2_init_fails;
     vfs_register := vfs_register_ok;
     overrun_string := chunked_heap |}.

(** The same with the [ext2_init] that returns -1 after it has stored a
    filesystem. *)
Definition collaborators_binding (r : Z) (sector : list byte)
  : Collaborators nat :=
  {| block_read := block_read_gives r sector;
     fat_init := fat_init_ok;
     ext2_init := ext2_init_binds_and_fails;
     vfs_register := vfs_register_ok;
     overrun_string := roomy_heap |}.

(** The scan on the heap of chunks, and the scan with the [ext2_init] that
    returns -1 after it has stored a filesystem. *)
Definition scan_chunked (r : Z) (sector : list byte)
    (parent : option (device nat)) : outcome nat (Z * out_params nat) :=
  read_mbr (ext := collaborators_chunked r sector) parent ([], 0) 0%nat.

Definition scan_binding (r : Z) (sector : list byte)
    (parent : option (device nat)) : outcome nat (Z * out_params nat) :=
  read_mbr (ext := collaborators_binding r sector) parent ([], 0) 0%nat.

(** The device built for slot [i] of [sector] on the roomy heap. *)
Definition partition (parent : device nat) (sector : list byte) (i : Z)
  : device nat :=
  new_partition (ext := collaborators 512 sector) parent sector i.

(** A parent with a name of 24 characters. *)
Definition long_name : string := "abcdefghijklmnopqrstuvwx".

Definition long_disk : device nat := disk long_name 512.

(** The scan of [parent] with these. *)
Definition scan (r : Z) (sector : list byte) (parent : option (device nat))
  : outcome nat (Z * out_params nat) :=
  read_mbr (ext := collaborators r sector) parent ([], 0) 0%nat.

(** The [bd] of the device the scan builds for slot 0 of [sector_ext2]. *)
Definition sda_0_bd : block_device :=
  dev_bd (partition sda sector_ext2 0).

(** A partition found inside the first partition of "sda", and one
    stacked on a partition of the disk with 4096-byte blocks. *)
Definition sda_0 : device nat := partition sda sector_ext2 0.

Definition sda_0_1 : device nat := partition sda_0 sector_fat_other 1.

Definition sdb_1_0 : device nat :=
  partition (partition sdb sector_fat_other 1) sector_ext2 0.

Section MbrFacts.

Context {W : Type} {ext : Collaborators W}.

(** ** Running the monad *)

Lemma value_bind {A B : Type} (m : M W A) (k : A -> M W B) (w : W) :
  value (bind m k w) = value (k (value (m w)) (final (m w))).
Proof. reflexivity. Qed.

Lemma final_bind {A B : Type} (m : M W A) (k : A -> M W B) (w : W) :
  final (bind m k w) = final (k (value (m w)) (final (m w))).
Proof. reflexivity. Qed.

Lemma emitted_bind {A B : Type} (m : M W A) (k : A -> M W B) (w : W) :
  emitted (bind m k w)
  = emitted (m w) ++ emitted (k (value (m w)) (final (m w))).
Proof. reflexivity. Qed.

Lemma register_fs_emitted (f : option fs) (w : W) :
  emitted (register_fs f w) = register_call f.
Proof. destruct f; reflexivity. Qed.

Ltac run_bind :=
  rewrite ?value_bind, ?final_bind, ?emitted_bind;
  cbn [ret emit printf extern value final emitted].

(** ** Bytes and words *)

Lemma byte_val_range (b : byte) : 0 <= byte_val b < 256.
Proof. destruct b; vm_compute; split; congruence. Qed.

Lemma sector_byte_range (sector : list byte) (k : Z) :
  0 <= sector_byte sector k < 256.
Proof. apply byte_val_range. Qed.

Lemma lor_shiftl_add (a b n : Z) :
  0 <= n -> 0 <= a < 2 ^ n -> Z.lor a (Z.shiftl b n) = a + b * 2 ^ n.
Proof.
  intros Hn Ha.
  assert (Hland : Z.land a (Z.shiftl b n) = 0).
  { apply Z.bits_inj'; intros k Hk.
    rewrite Z.land_spec, Z.bits_0.
    destruct (Z.lt_ge_cases k n) as [Hlt | Hge].
    - rewrite (Z.shiftl_spec_low b n k Hlt). apply andb_false_r.
    - destruct (Z.eq_dec a 0) as [-> | Hne].
      + rewrite Z.bits_0. reflexivity.
      + rewrite (Z.bits_above_log2 a k); [reflexivity | lia |].
        apply Z.lt_le_trans with n; [| exact Hge].
        apply Z.log2_lt_pow2; lia. }
  rewrite <- (Z.lxor_lor _ _ Hland), <- (Z.add_nocarry_lxor _ _ Hland).
  rewrite Z.shiftl_mul_pow2 by exact Hn. reflexivity.
Qed.

Lemma read_word_le32 (sector : list byte) (k : Z) :
  read_word sector k = le32 sector k.
Proof.
  unfold read_word, le32. rewrite Z.add_0_r.
  pose proof (sector_byte_range sector k) as H0.
  pose proof (sector_byte_range sector (k + 1)) as H1.
  pose proof (sector_byte_range sector (k + 2)) as H2.
  pose proof (sector_byte_range sector (k + 3)) as H3.
  set (b0 := sector_byte sector k) in *.
  set (b1 := sector_byte sector (k + 1)) in *.
  set (b2 := sector_byte sector (k + 2)) in *.
  set (b3 := sector_byte sector (k + 3)) in *.
  replace (Z.shiftl b3 24) with (Z.shiftl (Z.shiftl b3 8) 16)
    by (rewrite Z.shiftl_shiftl by lia; reflexivity).
  rewrite <- Z.shiftl_lor.
  replace (Z.shiftl (Z.lor b2 (Z.shiftl b3 8)) 16)
    with (Z.shiftl (Z.shiftl (Z.lor b2 (Z.shiftl b3 8)) 8) 8)
    by (rewrite Z.shiftl_shiftl by lia; reflexivity).
  rewrite <- Z.shiftl_lor.
  rewrite (lor_shiftl_add b2 b3 8) by lia.
  rewrite (lor_shiftl_add b1 _ 8) by lia.
  rewrite (lor_shiftl_add b0 _ 8) by lia.
  unfold to_u32. change (2 ^ 8) with 256.
  rewrite Z.mod_small by (change (2 ^ 32) with 4294967296; lia).
  lia.
Qed.

Lemma le32_range (sector : list byte) (k : Z) :
  0 <= le32 sector k < 2 ^ 32.
Proof.
  unfold le32.
  pose proof (sector_byte_range sector k).
  pose proof (sector_byte_range sector (k + 1)).
  pose proof (sector_byte_range sector (k + 2)).
  pose proof (sector_byte_range sector (k + 3)).
  change (2 ^ 32) with 4294967296. lia.
Qed.

(** ** The array of pointers *)

Lemma store_slot_fill (ds : list (device W)) (n : nat) (d : device W) :
  store_slot (map Some ds ++ repeat None (S n)) (List.length ds) d
  = map Some (ds ++ [d]) ++ repeat None n.
Proof.
  induction ds as [| x ds IH]; cbn [map app List.length store_slot].
  - reflexivity.
  - rewrite IH. reflexivity.
Qed.

Lemma store_slot_again (parts : list (option (device W))) (k : nat)
    (d d' : device W) :
  store_slot (store_slot parts k d) k d' = store_slot parts k d'.
Proof.
  revert k; induction parts as [| x parts IH]; intros [| k]; simpl;
    try reflexivity.
  rewrite IH. reflexivity.
Qed.

(** ** The [switch] against the table *)

Lemma bind_driver_table (d : device W) (b : byte) :
  bind_driver d (byte_val b)
  = match table_driver (byte_val b) with
    | FatDriver =>
        emit (ev_fat_init d);; r <- extern (fat_init d);; ret (snd r)
    | Ext2Driver =>
        emit (ev_ext2_init d);; r <- extern (ext2_init d);; ret (snd r)
    | NoDriver => ret None
    end.
Proof. destruct b; reflexivity. Qed.

Lemma bind_driver_emitted (d : device W) (sector : list byte) (i : Z) (w : W) :
  emitted (bind_driver d (type_code sector i) w)
  = init_call d (type_code sector i).
Proof.
  unfold type_code, sector_byte, init_call.
  rewrite bind_driver_table.
  destruct (table_driver _); reflexivity.
Qed.

Lemma bind_driver_no_driver (d : device W) (sector : list byte) (i : Z)
    (w : W) :
  table_driver (type_code sector i) = NoDriver ->
  bind_driver d (type_code sector i) w = mk_outcome None w [].
Proof.
  unfold type_code, sector_byte. intros H.
  rewrite bind_driver_table, H. reflexivity.
Qed.

(** ** One turn of the loop *)

Lemma p_offset_entry (i : Z) : 0x1be + i * 0x10 = entry_offset i.
Proof. unfold entry_offset. lia. Qed.

Lemma load_partition_inactive (parent : device W) (sector : list byte) (i : Z)
    (st : list (option (device W)) * Z) (w : W) :
  active sector i = false ->
  load_partition parent sector i st w = mk_outcome st w [].
Proof.
  unfold active, type_code, load_partition. intros H.
  destruct st as [parts cur_p].
  rewrite p_offset_entry, H. reflexivity.
Qed.

Lemma load_partition_active (parent : device W) (sector : list byte) (i : Z)
    (parts : list (option (device W))) (cur_p : Z) (w : W) :
  active sector i = true ->
  let d := new_partition parent sector i in
  let ob := bind_driver d (type_code sector i) w in
  let o := load_partition parent sector i (parts, cur_p) w in
  value o = (store_slot parts (Z.to_nat cur_p) (dev_set_fs d (value ob)),
             cur_p + 1)
  /\ emitted o = emitted ob ++ register_call (value ob)
  /\ final o = final (register_fs (value ob) (final ob)).
Proof.
  unfold active, type_code, load_partition. intros H.
  rewrite p_offset_entry, H. cbn zeta.
  run_bind. rewrite register_fs_emitted, app_nil_r.
  replace (cur_p + 1 - 1) with cur_p by lia.
  rewrite store_slot_again.
  repeat split.
Qed.

(** ** The loop *)

Lemma for_range_invariant {S : Type} (I : nat -> S -> list (event W) -> Prop)
    (body : Z -> S -> M W S) (n : nat) :
  (forall k s evs w, (k < n)%nat -> I k s evs ->
     I (Datatypes.S k) (value (body (Z.of_nat k) s w))
       (evs ++ emitted (body (Z.of_nat k) s w))) ->
  forall m k s evs w, (k + m = n)%nat -> I k s evs ->
    I n (value (for_range m (Z.of_nat k) body s w))
      (evs ++ emitted (for_range m (Z.of_nat k) body s w)).
Proof.
  intros Hstep m; induction m as [| m IH]; intros k s evs w Hk HI.
  - cbn. rewrite app_nil_r. replace n with k by lia. exact HI.
  - cbn [for_range]. unfold bind. cbn [value final emitted].
    rewrite app_assoc.
    replace (Z.of_nat k + 1) with (Z.of_nat (Datatypes.S k)) by lia.
    apply IH; [lia |]. apply Hstep; [lia | exact HI].
Qed.

Lemma combine_snoc {A B : Type} (l : list A) (l' : list B) (a : A) (b : B) :
  List.length l = List.length l' ->
  combine (l ++ [a]) (l' ++ [b]) = combine l l' ++ [(a, b)].
Proof.
  revert l'; induction l as [| x l IH]; intros [| y l'] H; cbn in *;
    try discriminate; try reflexivity.
  rewrite IH by congruence. reflexivity.
Qed.

Lemma filter_length_le {A : Type} (f : A -> bool) (l : list A) :
  (List.length (filter f l) <= List.length l)%nat.
Proof.
  induction l as [| x l IH]; cbn; [lia |].
  destruct (f x); cbn; lia.
Qed.

Lemma slots_upto_length (k : nat) : List.length (slots_upto k) = k.
Proof. unfold slots_upto. rewrite length_map, length_seq. reflexivity. Qed.

Lemma slots_upto_succ (k : nat) :
  slots_upto (Datatypes.S k) = slots_upto k ++ [Z.of_nat k].
Proof. unfold slots_upto. rewrite seq_S, map_app. reflexivity. Qed.

Lemma scan_inv_step (parent : device W) (sector : list byte) (k : nat)
    (st : list (option (device W)) * Z) (evs : list (event W)) (w : W) :
  (k < 4)%nat ->
  scan_inv parent sector k st evs ->
  scan_inv parent sector (Datatypes.S k)
    (value (load_partition parent sector (Z.of_nat k) st w))
    (evs ++ emitted (load_partition parent sector (Z.of_nat k) st w)).
Proof.
  intros Hk (fsl & Hlen & Hst & Hevs & Hall).
  unfold scan_inv. rewrite slots_upto_succ, filter_app. cbn [filter].
  pose proof (filter_length_le (active sector) (slots_upto k)) as Hle.
  rewrite slots_upto_length in Hle.
  set (act := filter (active sector) (slots_upto k)) in *.
  destruct (active sector (Z.of_nat k)) eqn:Hact.
  - destruct (load_partition_active parent sector (Z.of_nat k)
                (fst st) (snd st) w Hact) as (Hv & He & _).
    rewrite <- surjective_pairing in Hv, He. rewrite Hv, He.
    exists (fsl ++ [value (bind_driver (new_partition parent sector (Z.of_nat k))
                           (type_code sector (Z.of_nat k)) w)]).
    rewrite !length_app, combine_snoc by (symmetry; exact Hlen).
    cbn [List.length]. repeat split.
    + lia.
    + subst st. cbn [fst snd]. rewrite Nat2Z.id.
      replace (4 - List.length act)%nat
        with (Datatypes.S (4 - (List.length act + 1)))%nat by lia.
      assert (Hds : List.length act
                    = List.length (map (bound_partition parent sector)
                                       (combine act fsl))).
      { rewrite length_map, length_combine, Hlen, Nat.min_id. reflexivity. }
      rewrite Hds at 2.
      rewrite store_slot_fill, !map_app.
      f_equal. lia.
    + rewrite flat_map_app, Hevs, bind_driver_emitted. cbn [flat_map].
      rewrite app_nil_r. reflexivity.
    + apply Forall_app; split; [exact Hall |].
      constructor; [| constructor]. exists w. reflexivity.
  - rewrite (load_partition_inactive parent sector _ st w Hact).
    cbn [value emitted]. rewrite !app_nil_r.
    exists fsl. repeat split; assumption.
Qed.

Lemma partitions_loop (parent : device W) (sector : list byte) (w : W) :
  scan_inv parent sector 4
    (value (for_range 4 0 (load_partition parent sector)
                      (repeat None 4, 0) w))
    (emitted (for_range 4 0 (load_partition parent sector)
                        (repeat None 4, 0) w)).
Proof.
  apply (for_range_invariant (scan_inv parent sector)
           (load_partition parent sector) 4
           (fun k s evs w0 Hk HI => scan_inv_step parent sector k s evs w0 Hk HI)
           4%nat 0%nat (repeat None 4, 0) [] w eq_refl).
  exists []. cbn. repeat split. constructor.
Qed.

(** ** The scan of a sector that was read in full *)

Lemma read_mbr_read_ok (p : device W) (outs : out_params W) (w w' : W)
    (sector : list byte) :
  block_read p 512 0 w = ((512, sector), w') ->
  read_mbr (Some p) outs w
  = (emit (ev_block_read p 512 0);;
     if has_signature sector then
       printf (msg_found_mbr (device_name (dev_bd p)));;
       st <- for_range 4 0 (load_partition p sector) (repeat None 4, 0);;
       printf (msg_found_total (snd st));;
       ret (0, st)
     else
       printf (msg_no_signature (device_name (dev_bd p))
                 (sector_byte sector 0x1fe) (sector_byte sector 0x1ff));;
       ret (-1, outs)) (snd (block_read p 512 0 w)).
Proof.
  intros H. unfold read_mbr, bind at 1 2, extern, emit, has_signature.
  cbn [value final emitted]. rewrite H. cbn [fst snd Z.ltb Z.eqb Z.compare Pos.eqb negb Pos.compare Pos.compare_cont].
  change 0x1FE with 0x1fe. change 0x1FF with 0x1ff.
  destruct (sector_byte sector 0x1fe =? 0x55);
    destruct (sector_byte sector 0x1ff =? 0xaa); reflexivity.
Qed.

Lemma read_mbr_valid (p : device W) (outs : out_params W) (w w' : W)
    (sector : list byte) :
  block_read p 512 0 w = ((512, sector), w') ->
  has_signature sector = true ->
  exists fsl : list (option fs),
    let act := active_slots sector in
    List.length fsl = List.length act
    /\ Forall (bound_by p sector) (combine act fsl)
    /\ value (read_mbr (Some p) outs w)
       = (0, (map Some (map (bound_partition p sector) (combine act fsl))
              ++ repeat None (4 - List.length act),
              Z.of_nat (List.length act)))
    /\ emitted (read_mbr (Some p) outs w)
       = ev_block_read p 512 0
         :: ev_printf (msg_found_mbr (device_name (dev_bd p)))
         :: flat_map (slot_calls p sector) (combine act fsl)
         ++ [ev_printf (msg_found_total (Z.of_nat (List.length act)))].
Proof.
  intros Hread Hsig.
  rewrite (read_mbr_read_ok p outs w w' sector Hread), Hsig.
  destruct (partitions_loop p sector w') as (fsl & Hlen & Hst & Hevs & Hall).
  exists fsl. cbn zeta in *.
  change (filter (active sector) (slots_upto 4)) with (active_slots sector)
    in *.
  rewrite Hread. cbn [snd].
  run_bind. rewrite Hst, Hevs. cbn [fst snd].
  repeat split; assumption.
Qed.

Lemma map_combine_fst {A B C : Type} (h : A -> C) (g : A * B -> C)
    (l : list A) (l' : list B) :
  List.length l' = List.length l ->
  (forall x, In x (combine l l') -> g x = h (fst x)) ->
  map g (combine l l') = map h l.
Proof.
  revert l'; induction l as [| a l IH]; intros [| b l'] Hlen Hg; cbn in *;
    try discriminate; try reflexivity.
  rewrite (Hg (a, b)) by (left; reflexivity).
  rewrite IH; [reflexivity | congruence |].
  intros x Hx. apply Hg. right. exact Hx.
Qed.

Lemma bound_partition_fields (parent : device W) (sector : list byte)
    (x : Z * option fs) :
  mbr_fields (bound_partition parent sector x)
  = Some (fst x, le32 sector (entry_offset (fst x) + 8),
          le32 sector (entry_offset (fst x) + 12), type_code sector (fst x)).
Proof.
  unfold bound_partition, new_partition, type_code. cbn [dev_set_fs mbr_fields].
  rewrite p_offset_entry, !read_word_le32. reflexivity.
Qed.

Lemma has_signature_false (sector : list byte) :
  has_signature sector = false
  <-> sector_byte sector 0x1FE <> 0x55 \/ sector_byte sector 0x1FF <> 0xAA.
Proof.
  unfold has_signature. rewrite andb_false_iff, !Z.eqb_neq. reflexivity.
Qed.

(** ** The partition table parser *)

(** C1.  A 512-byte sector read from block 0: when bytes 0x1FE and 0x1FF
    hold 0x55 and 0xAA, the scan builds, from the four 16-byte entries at
    [0x1BE + 16 i] for [i] in 0..3 and in that order, one device for each
    entry whose type code (byte 4 of the entry) is not zero, with
    [part_no = i], [start_block] the little-endian word at byte 8,
    [blocks] the little-endian word at byte 12 and [part_id] the type
    code; and the scan gives up with -1 and the message of a missing
    signature iff byte 0x1FE is not 0x55 or byte 0x1FF is not 0xAA. *)
Theorem read_mbr_decodes_table (p : device W) (outs : out_params W) (w w' : W)
    (sector : list byte) :
  block_read p 512 0 w = ((512, sector), w') ->
  List.length sector = 512%nat ->
  let o := read_mbr (Some p) outs w in
  (sector_byte sector 0x1FE = 0x55 /\ sector_byte sector 0x1FF = 0xAA ->
   fst (value o) = 0
   /\ exists ds : list (device W),
        fst (snd (value o)) = map Some ds ++ repeat None (4 - List.length ds)
        /\ snd (snd (value o)) = Z.of_nat (List.length ds)
        /\ map mbr_fields ds
           = map (fun i => Some (i, le32 sector (0x1BE + 16 * i + 8),
                                 le32 sector (0x1BE + 16 * i + 12),
                                 sector_byte sector (0x1BE + 16 * i + 4)))
                 (filter (fun i =>
                            negb (sector_byte sector (0x1BE + 16 * i + 4) =? 0))
                         [0; 1; 2; 3]))
  /\ (fst (value o) = -1
      /\ emitted o
         = [ev_block_read p 512 0;
            ev_printf (msg_no_signature (device_name (dev_bd p))
                         (sector_byte sector 0x1FE)
                         (sector_byte sector 0x1FF))]
      <-> sector_byte sector 0x1FE <> 0x55
          \/ sector_byte sector 0x1FF <> 0xAA).
Proof.
  intros Hread _ o. subst o.
  destruct (has_signature sector) eqn:Hsig.
  - destruct (read_mbr_valid p outs w w' sector Hread Hsig)
      as (fsl & Hlen & _ & Hv & _).
    cbn zeta in *. rewrite Hv. cbn [fst snd]. split.
    + intros _. split; [reflexivity |].
      exists (map (bound_partition p sector)
                  (combine (active_slots sector) fsl)).
      rewrite !length_map, length_combine, Hlen, Nat.min_id.
      repeat split.
      rewrite map_map.
      apply (map_combine_fst
               (fun i => Some (i, le32 sector (entry_offset i + 8),
                               le32 sector (entry_offset i + 12),
                               type_code sector i))
               (fun x => mbr_fields (bound_partition p sector x))
               (active_slots sector) fsl).
      * exact Hlen.
      * intros x _. apply bound_partition_fields.
    + split.
      * intros [H _]. discriminate H.
      * intros H. apply has_signature_false in H. congruence.
  - rewrite (read_mbr_read_ok p outs w w' sector Hread), Hsig, Hread.
    cbn [snd]. run_bind. cbn [fst]. split.
    + intros [H1 H2]. unfold has_signature in Hsig.
      rewrite H1, H2 in Hsig. discriminate Hsig.
    + split.
      * intros _. apply has_signature_false. exact Hsig.
      * intros _. split; reflexivity.
Qed.

Lemma active_slots_in (sector : list byte) (i : Z) :
  In i (active_slots sector) -> i = 0 \/ i = 1 \/ i = 2 \/ i = 3.
Proof.
  unfold active_slots. rewrite filter_In. cbn. intuition.
Qed.

Lemma active_slots_sorted (sector : list byte) :
  StronglySorted Z.lt (active_slots sector).
Proof.
  unfold active_slots, slots. cbn [filter].
  destruct (active sector 0), (active sector 1), (active sector 2),
    (active sector 3);
    repeat (constructor; [| repeat (constructor; try lia)]); constructor.
Qed.

Lemma bound_partition_id (parent : device W) (sector : list byte)
    (x : Z * option fs) :
  In (fst x) (active_slots sector) ->
  (device_id (dev_bd (bound_partition parent sector x)),
   dev_id_len (dev_bd (bound_partition parent sector x)))
  = ([fst x], 1).
Proof.
  intros H. apply active_slots_in in H.
  destruct x as [i f]. cbn [fst] in *.
  destruct H as [-> | [-> | [-> | ->]]]; reflexivity.
Qed.

Lemma dev_name_never_fits (parent_name : string) :
  dev_name_fits parent_name = false.
Proof.
  unfold dev_name_fits, dev_name_request, strlen_from, dev_name_bytes.
  destruct (2 <=? String.length parent_name)%nat; [| reflexivity].
  apply Z.leb_gt. lia.
Qed.

Lemma in_combine_fst {A B : Type} (l : list A) (l' : list B) (x : A * B) :
  In x (combine l l') -> In (fst x) l.
Proof. destruct x as [a b]. apply in_combine_l. Qed.

(** ** The devices of a scan *)

(** C3, as the code has it.  Every device a scan returns has the block
    size 512, whatever the block size of its parent; it has the parent's
    block size exactly when that is 512. *)
Theorem read_mbr_block_size (p : device W) (outs : out_params W) (w w' : W)
    (sector : list byte) (d : device W) :
  block_read p 512 0 w = ((512, sector), w') ->
  has_signature sector = true ->
  In (Some d) (fst (snd (value (read_mbr (Some p) outs w)))) ->
  block_size (dev_bd d) = 512
  /\ (block_size (dev_bd d) = block_size (dev_bd p)
      <-> block_size (dev_bd p) = 512).
Proof.
  intros Hread Hsig Hin.
  destruct (read_mbr_valid p outs w w' sector Hread Hsig)
    as (fsl & _ & _ & Hv & _).
  cbn zeta in Hv. rewrite Hv in Hin. cbn [fst snd] in Hin.
  assert (Hd : block_size (dev_bd d) = 512).
  { apply in_app_or in Hin. destruct Hin as [Hin | Hin].
    - apply in_map_iff in Hin. destruct Hin as (d' & Heq & Hin).
      injection Heq as ->.
      apply in_map_iff in Hin. destruct Hin as (x & <- & _).
      reflexivity.
    - apply repeat_spec in Hin. discriminate Hin. }
  split; [exact Hd |]. rewrite Hd. split; intros H; congruence.
Qed.

(** ** Reading through a partition *)

(** C4.  A partition device whose block size is its parent's: [mbr_read]
    on (buffer, size, starting block) is the call of the parent's [read]
    on the same buffer and size at block [starting_block + start_block],
    the sum of two [uint32_t]: same value returned, same buffer, same
    effect on the world.  When the sum fits 32 bits the block asked for is
    the sum itself. *)
Theorem mbr_read_delegates (bd : block_device) (parent : device W)
    (start_block : Z) (buf : list byte) (buf_size starting_block : Z)
    (w : W) :
  block_size bd = block_size (dev_bd parent) ->
  mbr_read bd parent start_block buf buf_size starting_block w
  = call_read parent buf buf_size (add32 starting_block start_block) w
  /\ (0 <= starting_block -> 0 <= start_block ->
      starting_block + start_block < 2 ^ 32 ->
      mbr_read bd parent start_block buf buf_size starting_block w
      = call_read parent buf buf_size (starting_block + start_block) w).
Proof.
  intros Hbs.
  assert (H : mbr_read bd parent start_block buf buf_size starting_block w
              = call_read parent buf buf_size
                          (add32 starting_block start_block) w).
  { unfold mbr_read, mbr_read_body.
    rewrite Hbs, Z.eqb_refl. reflexivity. }
  split; [exact H |].
  intros H1 H2 H3. rewrite H. unfold add32, to_u32.
  rewrite Z.mod_small by lia. reflexivity.
Qed.

(** C5.  A partition device whose block size is not its parent's: every
    [mbr_read] returns -1 after the message that the block sizes differ,
    leaves the buffer and the world as they were, and calls no [read]. *)
Theorem mbr_read_block_size_differs (bd : block_device) (parent : device W)
    (start_block : Z) (buf : list byte) (buf_size starting_block : Z)
    (w : W) :
  block_size bd <> block_size (dev_bd parent) ->
  let o := mbr_read bd parent start_block buf buf_size starting_block w in
  o = mk_outcome (-1, buf) w
        [ev_printf (msg_block_size_differs (block_size bd)
                                           (block_size (dev_bd parent)))]
  /\ Forall (fun e => is_read_call e = false) (emitted o).
Proof.
  intros Hbs o. subst o. unfold mbr_read, mbr_read_body.
  apply Z.eqb_neq in Hbs. rewrite Hbs. cbn.
  split; [reflexivity |]. repeat constructor.
Qed.

(** C10.  The block handed to the parent is computed in 32-bit unsigned
    arithmetic: with equal block sizes the parent's [read] is called, and
    called at [(starting_block + start_block) mod 2^32]; when the sum
    reaches 2^32 that is the sum less 2^32, a block below
    [starting_block], and the read is not turned down. *)
Theorem mbr_read_wraps (bd : block_device) (parent : device W)
    (start_block : Z) (buf : list byte) (buf_size starting_block : Z)
    (w : W) :
  block_size bd = block_size (dev_bd parent) ->
  0 <= starting_block < 2 ^ 32 ->
  0 <= start_block < 2 ^ 32 ->
  let o := mbr_read bd parent start_block buf buf_size starting_block w in
  let block := (starting_block + start_block) mod 2 ^ 32 in
  hd_error (emitted o) = Some (ev_read parent buf_size block)
  /\ o = call_read parent buf buf_size block w
  /\ (2 ^ 32 <= starting_block + start_block ->
      block = starting_block + start_block - 2 ^ 32
      /\ block < starting_block).
Proof.
  intros Hbs Hsb Hst o block. subst o block.
  unfold mbr_read, mbr_read_body. rewrite Hbs, Z.eqb_refl.
  cbn [negb]. unfold add32, to_u32.
  split; [| split].
  - destruct parent; reflexivity.
  - reflexivity.
  - intros Hov.
    assert (H : (starting_block + start_block) mod 2 ^ 32
                = starting_block + start_block - 2 ^ 32).
    { symmetry. apply Z.mod_unique with (q := 1); lia. }
    rewrite H. lia.
Qed.

(** ** Scans that give up *)

Lemma read_mbr_no_parent (outs : out_params W) (w : W) :
  read_mbr None outs w
  = mk_outcome (-1, outs) w [ev_printf msg_invalid_parent].
Proof. reflexivity. Qed.

Lemma read_mbr_read_error (p : device W) (outs : out_params W) (w w' : W)
    (r : Z) (sector : list byte) :
  block_read p 512 0 w = ((r, sector), w') ->
  r < 0 ->
  read_mbr (Some p) outs w
  = mk_outcome (r, outs) w'
      [ev_block_read p 512 0; ev_printf (msg_block_read_failed r)].
Proof.
  intros H Hr. unfold read_mbr, bind at 1 2, extern, emit.
  cbn [value final emitted]. rewrite H. cbn [fst snd].
  apply Z.ltb_lt in Hr. rewrite Hr. reflexivity.
Qed.

Lemma read_mbr_short_read (p : device W) (outs : out_params W) (w w' : W)
    (r : Z) (sector : list byte) :
  block_read p 512 0 w = ((r, sector), w') ->
  0 <= r ->
  r <> 512 ->
  read_mbr (Some p) outs w
  = mk_outcome (-1, outs) w'
      [ev_block_read p 512 0;
       ev_printf (msg_short_read (device_name (dev_bd p)) r)].
Proof.
  intros H Hr Hne. unfold read_mbr, bind at 1 2, extern, emit.
  cbn [value final emitted]. rewrite H. cbn [fst snd].
  apply Z.ltb_ge in Hr. apply Z.eqb_neq in Hne. rewrite Hr, Hne.
  reflexivity.
Qed.

Lemma read_mbr_no_signature (p : device W) (outs : out_params W) (w w' : W)
    (sector : list byte) :
  block_read p 512 0 w = ((512, sector), w') ->
  has_signature sector = false ->
  read_mbr (Some p) outs w
  = mk_outcome (-1, outs) w'
      [ev_block_read p 512 0;
       ev_printf (msg_no_signature (device_name (dev_bd p))
                    (sector_byte sector 0x1fe) (sector_byte sector 0x1ff))].
Proof.
  intros H Hsig.
  rewrite (read_mbr_read_ok p outs w w' sector H), Hsig, H. reflexivity.
Qed.

(** C6.  The scan gives up exactly on an absent parent, a negative or
    wrong count from the read of block 0, or a missing signature; whenever
    it does, the value returned is negative, the variables behind
    [partitions] and [part_count] hold what they held, no initializer and
    no registration is called, and the world is as the one read left
    it. *)
Theorem read_mbr_failure (parent : option (device W)) (outs : out_params W)
    (w : W) :
  let o := read_mbr parent outs w in
  (fst (value o) <> 0 <-> scan_fails parent w)
  /\ (fst (value o) <> 0 ->
      fst (value o) < 0
      /\ snd (value o) = outs
      /\ Forall (fun e => is_binding_call e = false) (emitted o)
      /\ final o = match parent with
                   | None => w
                   | Some p => snd (block_read p 512 0 w)
                   end).
Proof.
  intros o. subst o. destruct parent as [p |].
  - unfold scan_fails.
    destruct (block_read p 512 0 w) as [[r sector] w'] eqn:Hread.
    cbn [fst snd].
    destruct (Z.lt_ge_cases r 0) as [Hneg | Hpos].
    { rewrite (read_mbr_read_error p outs w w' r sector Hread Hneg).
      cbn [value final emitted fst snd].
      split; [split; [intros _; left; exact Hneg | lia] |].
      intros _. repeat split; try exact Hneg; repeat constructor. }
    destruct (Z.eq_dec r 512) as [-> | Hne].
    2:{ rewrite (read_mbr_short_read p outs w w' r sector Hread Hpos Hne).
        cbn [value final emitted fst snd].
        split; [split; [intros _; right; left; exact Hne | lia] |].
        intros _. repeat split; try lia; repeat constructor. }
    destruct (has_signature sector) eqn:Hsig.
    + destruct (read_mbr_valid p outs w w' sector Hread Hsig)
        as (fsl & _ & _ & Hv & _).
      cbn zeta in Hv. rewrite Hv. cbn [fst].
      split; [| intros H; exfalso; apply H; reflexivity].
      split; [intros H; exfalso; apply H; reflexivity |].
      intros [H | [H | H]]; [lia | congruence | discriminate H].
    + rewrite (read_mbr_no_signature p outs w w' sector Hread Hsig).
      cbn [value final emitted fst snd].
      split; [split; [intros _; right; right; reflexivity | lia] |].
      intros _. repeat split; try lia; repeat constructor.
  - rewrite read_mbr_no_parent. cbn.
    split; [split; [intros _; exact I | lia] |].
    intros _. repeat split; try lia; repeat constructor.
Qed.

(** C9, as the code has it.  An absent parent, a read of block 0 that
    yields a count other than 512 and a missing signature all make the
    scan return -1, each after a message of its own; a negative result of
    the read is returned as it is.  The value returned does not tell the
    kinds of failure apart. *)
Theorem read_mbr_error_values (p : device W) (outs : out_params W) (w w' : W)
    (r : Z) (sector : list byte) :
  block_read p 512 0 w = ((r, sector), w') ->
  let o := read_mbr (Some p) outs w in
  value (read_mbr None outs w) = (-1, outs)
  /\ emitted (read_mbr None outs w) = [ev_printf msg_invalid_parent]
  /\ (r < 0 ->
      value o = (r, outs)
      /\ emitted o
         = [ev_block_read p 512 0; ev_printf (msg_block_read_failed r)])
  /\ (0 <= r -> r <> 512 ->
      value o = (-1, outs)
      /\ emitted o
         = [ev_block_read p 512 0;
            ev_printf (msg_short_read (device_name (dev_bd p)) r)])
  /\ (r = 512 -> has_signature sector = false ->
      value o = (-1, outs)
      /\ emitted o
         = [ev_block_read p 512 0;
            ev_printf (msg_no_signature (device_name (dev_bd p))
                         (sector_byte sector 0x1FE)
                         (sector_byte sector 0x1FF))]).
Proof.
  intros Hread o. subst o. rewrite read_mbr_no_parent.
  split; [reflexivity |]. split; [reflexivity |].
  split; [| split].
  - intros Hr.
    rewrite (read_mbr_read_error p outs w w' r sector Hread Hr).
    split; reflexivity.
  - intros Hr Hne.
    rewrite (read_mbr_short_read p outs w w' r sector Hread Hr Hne).
    split; reflexivity.
  - intros -> Hsig.
    rewrite (read_mbr_no_signature p outs w w' sector Hread Hsig).
    split; reflexivity.
Qed.

(** ** Binding a driver *)

Lemma table_driver_fat (code : Z) :
  In code fat_codes -> table_driver code = FatDriver.
Proof.
  intros H. unfold table_driver.
  replace (existsb (Z.eqb code) fat_codes) with true; [reflexivity |].
  symmetry. apply existsb_exists. exists code. split; [exact H |].
  apply Z.eqb_refl.
Qed.

Lemma table_driver_ext2 : table_driver 0x83 = Ext2Driver.
Proof. reflexivity. Qed.

Lemma table_driver_none (code : Z) :
  ~ In code fat_codes -> code <> 0x83 -> table_driver code = NoDriver.
Proof.
  intros Hfat Hext. unfold table_driver.
  destruct (existsb (Z.eqb code) fat_codes) eqn:He.
  - apply existsb_exists in He. destruct He as (c & Hin & Heq).
    apply Z.eqb_eq in Heq. subst c. contradiction.
  - apply Z.eqb_neq in Hext. rewrite Hext. reflexivity.
Qed.

Lemma bind_driver_value (d : device W) (sector : list byte) (i : Z) (w : W) :
  value (bind_driver d (type_code sector i) w)
  = match table_driver (type_code sector i) with
    | FatDriver => snd (fst (fat_init d w))
    | Ext2Driver => snd (fst (ext2_init d w))
    | NoDriver => None
    end.
Proof.
  unfold type_code, sector_byte. rewrite bind_driver_table.
  destruct (table_driver _); reflexivity.
Qed.

Lemma type_code_active (sector : list byte) (i : Z) :
  type_code sector i <> 0 -> active sector i = true.
Proof. intros H. unfold active. apply Z.eqb_neq in H. rewrite H. reflexivity. Qed.

(** C7.  For an entry whose type code is not zero, the turn of the loop
    stores the device built for it and picks the initializer by the type
    code alone: a code of the FAT list calls [fat_init] on the device, code
    0x83 calls [ext2_init] on it, and any other code calls nothing and
    leaves the device stored with a null [fs]. *)
Theorem driver_binding_by_type_code (parent : device W) (sector : list byte)
    (i : Z) (parts : list (option (device W))) (cur_p : Z) (w : W) :
  type_code sector i <> 0 ->
  let code := type_code sector i in
  let d := new_partition parent sector i in
  let o := load_partition parent sector i (parts, cur_p) w in
  (In code [0x01; 0x04; 0x06; 0x0B; 0x0C; 0x0E; 0x11; 0x14; 0x1B; 0x1C; 0x1E] ->
   let f := snd (fst (fat_init d w)) in
   emitted o = ev_fat_init d :: register_call f
   /\ value o = (store_slot parts (Z.to_nat cur_p) (dev_set_fs d f),
                 cur_p + 1))
  /\ (code = 0x83 ->
      let f := snd (fst (ext2_init d w)) in
      emitted o = ev_ext2_init d :: register_call f
      /\ value o = (store_slot parts (Z.to_nat cur_p) (dev_set_fs d f),
                    cur_p + 1))
  /\ (~ In code [0x01; 0x04; 0x06; 0x0B; 0x0C; 0x0E; 0x11; 0x14; 0x1B; 0x1C;
                 0x1E] ->
      code <> 0x83 ->
      emitted o = []
      /\ final o = w
      /\ value o = (store_slot parts (Z.to_nat cur_p) d, cur_p + 1)
      /\ bd_fs (dev_bd d) = None).
Proof.
  intros Hcode code d o.
  destruct (load_partition_active parent sector i parts cur_p w
              (type_code_active sector i Hcode)) as (Hv & He & Hf).
  cbn zeta in Hv, He, Hf.
  rewrite bind_driver_emitted in He.
  rewrite bind_driver_value in Hv, He, Hf.
  unfold init_call in He.
  subst code d o.
  split; [| split].
  - intros Hin f.
    rewrite (table_driver_fat _ Hin) in Hv, He.
    split; [exact He | exact Hv].
  - intros Heq f. rewrite Heq in Hv, He. rewrite table_driver_ext2 in Hv, He.
    split; [exact He | exact Hv].
  - intros Hfat Hext.
    rewrite (table_driver_none _ Hfat Hext) in Hv, He, Hf.
    rewrite (bind_driver_no_driver _ sector i w
               (table_driver_none _ Hfat Hext)) in Hf.
    repeat split; assumption.
Qed.

Lemma filter_register_init_call (d : device W) (code : Z) :
  filter is_register_call (init_call d code) = [].
Proof. unfold init_call. destruct (table_driver code); reflexivity. Qed.

Lemma filter_register_register_call (f : option fs) :
  filter is_register_call (register_call f) = register_call (W := W) f.
Proof. destruct f; reflexivity. Qed.

Lemma filter_register_slot_calls (parent : device W) (sector : list byte)
    (l : list (Z * option fs)) :
  filter is_register_call (flat_map (slot_calls parent sector) l)
  = flat_map (fun d => register_call (bd_fs (dev_bd d)))
             (map (bound_partition parent sector) l).
Proof.
  induction l as [| x l IH]; [reflexivity |].
  cbn [flat_map map]. rewrite filter_app, IH. unfold slot_calls at 1.
  rewrite filter_app, filter_register_init_call,
    filter_register_register_call.
  reflexivity.
Qed.

(** C8, as the code has it.  A scan of a sector with a valid signature
    returns 0 and one device for every entry of non-zero type code,
    whatever the initializers and the registrar do, and [vfs_register] is
    called for exactly the filesystems the returned devices hold, in
    their order.  The [int] an initializer returns is not looked at: in
    the turn of the loop for such an entry the device is stored with the
    [fs] its initializer left in the field, whatever it returned; it has
    none exactly when the table has no initializer for the type code or
    the initializer left the field null, and that turn registers a
    filesystem exactly when the field is not null. *)
Theorem unbound_partition_is_kept (p : device W) (outs : out_params W)
    (w w' : W) (sector : list byte) :
  block_read p 512 0 w = ((512, sector), w') ->
  has_signature sector = true ->
  let o := read_mbr (Some p) outs w in
  fst (value o) = 0
  /\ (exists ds : list (device W),
        List.length ds = List.length (active_slots sector)
        /\ fst (snd (value o)) = map Some ds ++ repeat None (4 - List.length ds)
        /\ snd (snd (value o)) = Z.of_nat (List.length ds)
        /\ filter is_register_call (emitted o)
           = flat_map (fun d => register_call (bd_fs (dev_bd d))) ds)
  /\ (forall (i : Z) (parts : list (option (device W))) (cur_p : Z) (wi : W),
        type_code sector i <> 0 ->
        let d := new_partition p sector i in
        let f := match table_driver (type_code sector i) with
                 | FatDriver => snd (fst (fat_init d wi))
                 | Ext2Driver => snd (fst (ext2_init d wi))
                 | NoDriver => None
                 end in
        let oi := load_partition p sector i (parts, cur_p) wi in
        value oi = (store_slot parts (Z.to_nat cur_p) (dev_set_fs d f),
                    cur_p + 1)
        /\ bd_fs (dev_bd (dev_set_fs d f)) = f
        /\ filter is_register_call (emitted oi) = register_call f).
Proof.
  intros Hread Hsig o. subst o.
  destruct (read_mbr_valid p outs w w' sector Hread Hsig)
    as (fsl & Hlen & _ & Hv & He).
  cbn zeta in *. rewrite Hv, He. cbn [fst snd].
  split; [reflexivity |]. split.
  - exists (map (bound_partition p sector)
                (combine (active_slots sector) fsl)).
    rewrite !length_map, length_combine, Hlen, Nat.min_id.
    repeat split.
    cbn [filter is_register_call]. rewrite filter_app.
    rewrite filter_register_slot_calls. cbn [filter is_register_call].
    apply app_nil_r.
  - intros i parts cur_p wi Hcode.
    destruct (load_partition_active p sector i parts cur_p wi
                (type_code_active sector i Hcode)) as (Hvi & Hei & _).
    cbn zeta in Hvi, Hei.
    rewrite bind_driver_emitted in Hei.
    rewrite bind_driver_value in Hvi, Hei.
    rewrite Hvi, Hei.
    rewrite filter_app, filter_register_init_call,
      filter_register_register_call.
    repeat split.
Qed.

(** ** Reading through a stack of partitions *)

Lemma call_read_mbr_agree (bd : block_device) (parent : device W)
    (n s b t : Z) (buf : list byte) (buf_size block : Z) (w : W) :
  block_size bd = block_size (dev_bd parent) ->
  call_read (mbr_dev bd parent n s b t) buf buf_size block w
  = (emit (ev_read (mbr_dev bd parent n s b t) buf_size block);;
     call_read parent buf buf_size (add32 block s)) w.
Proof.
  intros H. cbn [call_read]. unfold mbr_read_body.
  rewrite H, Z.eqb_refl. reflexivity.
Qed.

Lemma call_read_mbr_differ (bd : block_device) (parent : device W)
    (n s b t : Z) (buf : list byte) (buf_size block : Z) (w : W) :
  block_size bd <> block_size (dev_bd parent) ->
  call_read (mbr_dev bd parent n s b t) buf buf_size block w
  = mk_outcome (-1, buf) w
      [ev_read (mbr_dev bd parent n s b t) buf_size block;
       ev_printf (msg_block_size_differs (block_size bd)
                                         (block_size (dev_bd parent)))].
Proof.
  intros H. cbn [call_read]. unfold mbr_read_body.
  apply Z.eqb_neq in H. rewrite H. reflexivity.
Qed.

Lemma add32_range (a b : Z) : 0 <= add32 a b < 2 ^ 32.
Proof. unfold add32, to_u32. apply Z.mod_pos_bound. reflexivity. Qed.

(** X1.  A read through a stack of partition devices whose block sizes
    all agree ends as one read of the device at the bottom, at the block
    asked for plus the start blocks of all the layers, modulo 2^32: same
    value returned, same buffer, same world afterwards, and that read is
    the last call made. *)
Theorem call_read_stack (d : device W) (buf : list byte)
    (buf_size block : Z) (w : W) :
  block_sizes_agree d = true ->
  0 <= block < 2 ^ 32 ->
  let o := call_read d buf buf_size block w in
  let bottom := call_read (root_device d) buf buf_size
                          ((block + stack_start d) mod 2 ^ 32) w in
  value o = value bottom
  /\ final o = final bottom
  /\ exists before,
       emitted o
       = before ++ [ev_read (root_device d) buf_size
                            ((block + stack_start d) mod 2 ^ 32)].
Proof.
  revert block. induction d as [bd read | bd parent IH n s b t];
    intros block Hagree Hblock.
  - cbn [root_device stack_start]. rewrite Z.add_0_r, Z.mod_small by exact Hblock.
    cbn zeta. repeat split. exists []. reflexivity.
  - cbn [block_sizes_agree] in Hagree. apply andb_true_iff in Hagree.
    destruct Hagree as [Hbs Hagree]. apply Z.eqb_eq in Hbs.
    cbn [root_device stack_start]. cbn zeta.
    rewrite (call_read_mbr_agree bd parent n s b t buf buf_size block w Hbs).
    run_bind.
    destruct (IH (add32 block s) Hagree (add32_range block s))
      as (Hv & Hf & before & He).
    assert (Hblk : (add32 block s + stack_start parent) mod 2 ^ 32
                   = (block + (s + stack_start parent)) mod 2 ^ 32).
    { unfold add32, to_u32. rewrite Z.add_mod_idemp_l by lia.
      f_equal. lia. }
    rewrite Hblk in Hv, Hf, He.
    split; [exact Hv |]. split; [exact Hf |].
    exists (ev_read (mbr_dev bd parent n s b t) buf_size block :: before).
    rewrite He. reflexivity.
Qed.

(** X2.  A read through a stack of partition devices in which some layer
    has not the block size of the device under it returns -1 and leaves
    the buffer and the world as they were; the [read] of the device at the
    bottom, and of any device of another driver, is not called. *)
Theorem call_read_stack_mismatch (d : device W) (buf : list byte)
    (buf_size block : Z) (w : W) :
  block_sizes_agree d = false ->
  let o := call_read d buf buf_size block w in
  value o = (-1, buf)
  /\ final o = w
  /\ Forall (fun e => is_extern_read e = false) (emitted o).
Proof.
  revert block. induction d as [bd read | bd parent IH n s b t];
    intros block Hagree.
  - discriminate Hagree.
  - cbn [block_sizes_agree] in Hagree. cbn zeta.
    destruct (Z.eq_dec (block_size bd) (block_size (dev_bd parent)))
      as [Hbs | Hbs].
    + rewrite Hbs, Z.eqb_refl in Hagree. cbn [andb] in Hagree.
      rewrite (call_read_mbr_agree bd parent n s b t buf buf_size block w
                 Hbs).
      run_bind.
      destruct (IH (add32 block s) Hagree) as (Hv & Hf & He).
      split; [exact Hv |]. split; [exact Hf |].
      constructor; [reflexivity | exact He].
    + rewrite (call_read_mbr_differ bd parent n s b t buf buf_size block w
                 Hbs).
      cbn [value final emitted]. repeat split. repeat constructor.
Qed.

(** ** The devices a scan returns *)

Lemma devices_of_filled (ds : list (device W)) (n : nat) :
  devices_of (map Some ds ++ repeat None n) = ds.
Proof.
  unfold devices_of. rewrite flat_map_app.
  assert (H1 : forall l : list (device W),
             flat_map (fun slot : option (device W) =>
                         match slot with Some d => [d] | None => [] end)
                      (map Some l) = l).
  { induction l as [| x l IH]; cbn; [reflexivity | rewrite IH; reflexivity]. }
  assert (H2 : forall k,
             flat_map (fun slot : option (device W) =>
                         match slot with Some d => [d] | None => [] end)
                      (repeat None k) = []).
  { induction k as [| k IH]; cbn; [reflexivity | exact IH]. }
  rewrite H1, H2. apply app_nil_r.
Qed.

Lemma read_mbr_devices_of (p : device W) (outs : out_params W) (w w' : W)
    (sector : list byte) :
  block_read p 512 0 w = ((512, sector), w') ->
  has_signature sector = true ->
  exists fsl : list (option fs),
    List.length fsl = List.length (active_slots sector)
    /\ Forall (bound_by p sector) (combine (active_slots sector) fsl)
    /\ devices_of (fst (snd (value (read_mbr (Some p) outs w))))
       = map (bound_partition p sector) (combine (active_slots sector) fsl)
    /\ emitted (read_mbr (Some p) outs w)
       = ev_block_read p 512 0
         :: ev_printf (msg_found_mbr (device_name (dev_bd p)))
         :: flat_map (slot_calls p sector) (combine (active_slots sector) fsl)
         ++ [ev_printf (msg_found_total
                          (Z.of_nat (List.length (active_slots sector))))].
Proof.
  intros Hread Hsig.
  destruct (read_mbr_valid p outs w w' sector Hread Hsig)
    as (fsl & Hlen & Hall & Hv & He).
  cbn zeta in *. exists fsl. rewrite Hv. cbn [fst snd].
  rewrite devices_of_filled. repeat split; assumption.
Qed.

Lemma slots_nodup : NoDup slots.
Proof.
  unfold slots. repeat constructor; cbn; intros H;
    repeat (destruct H as [H | H]; [discriminate H |]); exact H.
Qed.

Lemma active_slot_type_code (sector : list byte) (i : Z) :
  In i (active_slots sector) -> type_code sector i <> 0.
Proof.
  unfold active_slots. rewrite filter_In. intros [_ H].
  unfold active in H. apply negb_true_iff, Z.eqb_neq in H. exact H.
Qed.

Lemma singleton_inj (i j : Z) : [i] = [j] -> i = j.
Proof. intros H. injection H as H. exact H. Qed.

(** X3.  The devices one scan returns are told apart by their
    [device_id]: the device of slot [i] has the [device_id] of the single
    byte [i] and a [dev_id_len] of 1, the slots come in ascending order,
    and no two returned devices have the same [device_id]. *)
Theorem read_mbr_ids_differ (p : device W) (outs : out_params W)
    (w w' : W) (sector : list byte) :
  block_read p 512 0 w = ((512, sector), w') ->
  has_signature sector = true ->
  let ds := devices_of (fst (snd (value (read_mbr (Some p) outs w)))) in
  let act := filter (fun i => negb (type_code sector i =? 0)) [0; 1; 2; 3] in
  map (fun d => (device_id (dev_bd d), dev_id_len (dev_bd d))) ds
  = map (fun i => ([i], 1)) act
  /\ StronglySorted Z.lt act
  /\ NoDup (map (fun d => device_id (dev_bd d)) ds).
Proof.
  intros Hread Hsig ds act. subst ds act.
  change (filter (fun i => negb (type_code sector i =? 0)) [0; 1; 2; 3])
    with (active_slots sector).
  destruct (read_mbr_devices_of p outs w w' sector Hread Hsig)
    as (fsl & Hlen & _ & Hds & _).
  rewrite Hds, !map_map.
  split; [| split].
  - apply (map_combine_fst
             (fun i => ([i], 1))
             (fun x => (device_id (dev_bd (bound_partition p sector x)),
                        dev_id_len (dev_bd (bound_partition p sector x))))
             (active_slots sector) fsl Hlen).
    intros x Hx. apply bound_partition_id.
    apply (in_combine_fst _ _ _ Hx).
  - apply active_slots_sorted.
  - rewrite (map_combine_fst
               (fun i => [i])
               (fun x => device_id (dev_bd (bound_partition p sector x)))
               (active_slots sector) fsl Hlen).
    + apply NoDup_map_NoDup_ForallPairs.
      * intros i j _ _ Heq. apply singleton_inj. exact Heq.
      * apply NoDup_filter, slots_nodup.
    + intros x Hx.
      exact (f_equal fst (bound_partition_id p sector x
                            (in_combine_fst _ _ _ Hx))).
Qed.

(** X4.  Every device a scan returns is a partition device of the parent
    scanned, with the driver name "mbr", a [part_no] from 0 to 3 and as
    [part_id] the type code of that slot, which is a byte other than 0;
    when the table has no initializer for that type code the device has no
    filesystem. *)
Theorem read_mbr_partitions (p : device W) (outs : out_params W)
    (w w' : W) (sector : list byte) :
  block_read p 512 0 w = ((512, sector), w') ->
  has_signature sector = true ->
  Forall (fun d =>
            exists bd n s b t,
              d = mbr_dev bd p n s b t
              /\ driver_name bd = "mbr"%string
              /\ 0 <= n <= 3
              /\ t = sector_byte sector (0x1be + n * 0x10 + 4)
              /\ 1 <= t <= 255
              /\ (has_initializer d = false -> bd_fs bd = None))
         (devices_of (fst (snd (value (read_mbr (Some p) outs w))))).
Proof.
  intros Hread Hsig.
  destruct (read_mbr_devices_of p outs w w' sector Hread Hsig)
    as (fsl & Hlen & Hall & Hds & _).
  rewrite Hds. apply Forall_forall. intros d Hd.
  apply in_map_iff in Hd. destruct Hd as ([i f] & <- & Hx).
  pose proof (in_combine_fst _ _ _ Hx) as Hi. cbn [fst] in Hi.
  rewrite Forall_forall in Hall. destruct (Hall _ Hx) as (wi & Hf).
  cbn [fst snd] in Hf. rewrite bind_driver_value in Hf.
  pose proof (active_slot_type_code sector i Hi) as Hcode.
  pose proof (sector_byte_range sector (entry_offset i + 4)) as Hrange.
  fold (type_code sector i) in Hrange.
  unfold bound_partition, new_partition. cbn [fst snd dev_set_fs].
  eexists _, _, _, _, _. split; [reflexivity |].
  rewrite p_offset_entry. fold (type_code sector i).
  cbn [driver_name set_fs bd_fs has_initializer].
  split; [reflexivity |].
  split; [apply active_slots_in in Hi; lia |].
  split; [reflexivity |].
  split; [lia |].
  intros Hno. destruct (table_driver (type_code sector i));
    [discriminate Hno | discriminate Hno | exact Hf].
Qed.

(** X5.  A device a scan returns can be read exactly when the parent has
    512-byte blocks: then a call of its [read] is a call of the parent's
    [read] at the block asked for plus the device's [start_block]; on a
    parent with any other block size the call returns -1 and changes
    neither the buffer nor the world, and the parent is not read. *)
Theorem read_scanned_partition (p : device W) (outs : out_params W)
    (w w' : W) (sector : list byte) (d : device W) (buf : list byte)
    (buf_size block : Z) (w1 : W) :
  block_read p 512 0 w = ((512, sector), w') ->
  has_signature sector = true ->
  In d (devices_of (fst (snd (value (read_mbr (Some p) outs w))))) ->
  (block_size (dev_bd p) = 512 ->
   exists n s b t,
     mbr_fields d = Some (n, s, b, t)
     /\ call_read d buf buf_size block w1
        = (emit (ev_read d buf_size block);;
           call_read p buf buf_size (add32 block s)) w1)
  /\ (block_size (dev_bd p) <> 512 ->
      call_read d buf buf_size block w1
      = mk_outcome (-1, buf) w1
          [ev_read d buf_size block;
           ev_printf (msg_block_size_differs 512
                                             (block_size (dev_bd p)))]).
Proof.
  intros Hread Hsig Hd.
  destruct (read_mbr_devices_of p outs w w' sector Hread Hsig)
    as (fsl & _ & _ & Hds & _).
  rewrite Hds in Hd.
  apply in_map_iff in Hd. destruct Hd as ([i f] & <- & _).
  unfold bound_partition, new_partition. cbn [fst snd dev_set_fs].
  split.
  - intros Hbs. eexists _, _, _, _. split; [reflexivity |].
    apply call_read_mbr_agree. cbn [block_size set_fs]. symmetry. exact Hbs.
  - intros Hbs.
    rewrite call_read_mbr_differ by (cbn [block_size set_fs]; congruence).
    reflexivity.
Qed.

(** ** The calls a scan makes *)

Lemma filter_read_slot_calls (parent : device W) (sector : list byte)
    (l : list (Z * option fs)) :
  filter is_read_call (flat_map (slot_calls parent sector) l) = [].
Proof.
  induction l as [| x l IH]; [reflexivity |].
  cbn [flat_map]. rewrite filter_app, IH, app_nil_r.
  unfold slot_calls, init_call, register_call. rewrite filter_app.
  destruct (table_driver _), (snd x); reflexivity.
Qed.

(** X6.  Among the calls [read_mbr] makes in its own statements there is
    one read and no more, whatever the outcome: the [block_read] of 512
    bytes at block 0 of the parent, and none without a parent; [read_mbr]
    never calls the [read] pointer of a device.  What the initializers
    read through the devices they are given is their own doing and is not
    counted. *)
Theorem read_mbr_reads_once (parent : option (device W))
    (outs : out_params W) (w : W) :
  filter is_read_call (emitted (read_mbr parent outs w))
  = match parent with
    | None => []
    | Some p => [ev_block_read p 512 0]
    end.
Proof.
  destruct parent as [p |]; [| reflexivity].
  destruct (block_read p 512 0 w) as [[r sector] w'] eqn:Hread.
  destruct (Z.lt_ge_cases r 0) as [Hneg | Hpos].
  { rewrite (read_mbr_read_error p outs w w' r sector Hread Hneg).
    reflexivity. }
  destruct (Z.eq_dec r 512) as [-> | Hne].
  2:{ rewrite (read_mbr_short_read p outs w w' r sector Hread Hpos Hne).
      reflexivity. }
  destruct (has_signature sector) eqn:Hsig.
  - destruct (read_mbr_devices_of p outs w w' sector Hread Hsig)
      as (fsl & _ & _ & _ & He).
    rewrite He. cbn [filter is_read_call].
    rewrite filter_app, filter_read_slot_calls. reflexivity.
  - rewrite (read_mbr_no_signature p outs w w' sector Hread Hsig).
    reflexivity.
Qed.

(** X7.  In the loop over the table the count of devices never runs ahead
    of the turns made: after [k] turns (at most 4) the array still has its
    four slots, [cur_p] lies between 0 and [k] and is the number of slots
    stored to.  So the slot stored to in a turn is always one of the
    four. *)
Theorem partitions_loop_bounds (p : device W) (sector : list byte)
    (k : nat) (w : W) :
  (k <= 4)%nat ->
  let st := value (for_range k 0 (load_partition p sector)
                             (repeat None 4, 0) w) in
  List.length (fst st) = 4%nat
  /\ 0 <= snd st <= Z.of_nat k
  /\ snd st = Z.of_nat (List.length (devices_of (fst st))).
Proof.
  intros Hk st.
  assert (Hinv : scan_inv p sector k st
                   (emitted (for_range k 0 (load_partition p sector)
                                       (repeat None 4, 0) w))).
  { apply (for_range_invariant (scan_inv p sector)
             (load_partition p sector) k
             (fun k' s evs w0 Hlt HI =>
                scan_inv_step p sector k' s evs w0
                  (Nat.lt_le_trans _ _ _ Hlt Hk) HI)
             k 0%nat (repeat None 4, 0) [] w eq_refl).
    exists []. cbn. repeat split. constructor. }
  destruct Hinv as (fsl & Hlen & Hst & _ & _). cbn zeta in Hlen, Hst.
  pose proof (filter_length_le (active sector) (slots_upto k)) as Hle.
  rewrite slots_upto_length in Hle.
  rewrite Hst. cbn [fst snd].
  rewrite devices_of_filled, length_app, repeat_length, !length_map,
    length_combine, Hlen, Nat.min_id.
  repeat split; lia.
Qed.

Lemma init_target_slot_calls (parent : device W) (sector : list byte)
    (l : list (Z * option fs)) :
  flat_map init_target (flat_map (slot_calls parent sector) l)
  = map (fun d => dev_set_fs d None)
        (filter has_initializer (map (bound_partition parent sector) l)).
Proof.
  induction l as [| [i f] l IH]; [reflexivity |].
  cbn [flat_map map filter]. rewrite flat_map_app, IH.
  unfold slot_calls at 1. cbn [fst snd]. rewrite flat_map_app.
  assert (Hd : dev_set_fs (bound_partition parent sector (i, f)) None
               = new_partition parent sector i) by reflexivity.
  assert (Hi : has_initializer (bound_partition parent sector (i, f))
               = match table_driver (type_code sector i) with
                 | NoDriver => false
                 | _ => true
                 end).
  { unfold bound_partition, new_partition.
    cbn [fst snd dev_set_fs has_initializer].
    rewrite p_offset_entry. reflexivity. }
  rewrite Hi. unfold init_call.
  destruct (table_driver (type_code sector i)), f;
    cbn [map flat_map init_target register_call app]; rewrite ?Hd;
    reflexivity.
Qed.

(** X8.  In a scan that succeeds the initializers are called on devices of
    the result and on no other: once for each returned device whose type
    code the table has an initializer for, in the order of the result, and
    each time on the device with its [fs] field still null. *)
Theorem read_mbr_initializer_calls (p : device W) (outs : out_params W)
    (w w' : W) (sector : list byte) :
  block_read p 512 0 w = ((512, sector), w') ->
  has_signature sector = true ->
  let o := read_mbr (Some p) outs w in
  flat_map init_target (emitted o)
  = map (fun d => dev_set_fs d None)
        (filter has_initializer (devices_of (fst (snd (value o))))).
Proof.
  intros Hread Hsig o. subst o.
  destruct (read_mbr_devices_of p outs w w' sector Hread Hsig)
    as (fsl & _ & _ & Hds & He).
  rewrite Hds, He. cbn [flat_map init_target app].
  rewrite flat_map_app, init_target_slot_calls. cbn [flat_map init_target].
  rewrite !app_nil_r. reflexivity.
Qed.

Lemma binding_slot_calls (parent : device W) (sector : list byte)
    (l : list (Z * option fs)) :
  filter is_binding_call (flat_map (slot_calls parent sector) l)
  = flat_map binding_calls_of (map (bound_partition parent sector) l).
Proof.
  induction l as [| [i f] l IH]; [reflexivity |].
  cbn [flat_map map]. rewrite filter_app, IH. f_equal.
  unfold slot_calls, bound_partition, new_partition.
  cbn [fst snd dev_set_fs binding_calls_of dev_bd bd_fs set_fs].
  rewrite !p_offset_entry. fold (type_code sector i).
  rewrite filter_app. unfold init_call.
  destruct (table_driver (type_code sector i)), f; reflexivity.
Qed.

(** X9.  In a scan that succeeds the initializer calls and registrations
    come device by device in the order of the result: for each returned
    device the call of its initializer, if the table has one, and right
    after it the registration of the filesystem the device holds, if it
    holds one, before the next entry is looked at. *)
Theorem read_mbr_binding_order (p : device W) (outs : out_params W)
    (w w' : W) (sector : list byte) :
  block_read p 512 0 w = ((512, sector), w') ->
  has_signature sector = true ->
  let o := read_mbr (Some p) outs w in
  filter is_binding_call (emitted o)
  = flat_map binding_calls_of (devices_of (fst (snd (value o)))).
Proof.
  intros Hread Hsig o. subst o.
  destruct (read_mbr_devices_of p outs w w' sector Hread Hsig)
    as (fsl & _ & _ & Hds & He).
  rewrite Hds, He. cbn [filter is_binding_call].
  rewrite filter_app, binding_slot_calls. cbn [filter is_binding_call].
  apply app_nil_r.
Qed.

End MbrFacts.

(** ** The theorems at work on the disk *)

Lemma read_mbr_decodes_table_witness :
  block_read (Collaborators := collaborators 512 sector_ext2) sda 512 0 0%nat
  = ((512, sector_ext2), 1%nat)
  /\ List.length sector_ext2 = 512%nat
  /\ (sector_byte sector_ext2 0x1FE = 0x55
      /\ sector_byte sector_ext2 0x1FF = 0xAA)
  /\ fst (value (scan 512 sector_ext2 (Some sda))) = 0.
Proof.
  split; [reflexivity |]. split; [reflexivity |].
  split; [split; reflexivity |].
  apply (proj1 (@read_mbr_decodes_table nat (collaborators 512 sector_ext2) sda ([], 0) 0%nat 1%nat
                  sector_ext2 eq_refl eq_refl)).
  split; reflexivity.
Defined.

Lemma read_mbr_block_size_witness :
  block_read (Collaborators := collaborators 512 sector_fat_other) sdb 512 0 0%nat
  = ((512, sector_fat_other), 1%nat)
  /\ has_signature sector_fat_other = true
  /\ In (Some (partition sdb sector_fat_other 3))
        (fst (snd (value (scan 512 sector_fat_other (Some sdb)))))
  /\ block_size (dev_bd (partition sdb sector_fat_other 3)) = 512.
Proof.
  assert (Hin : In (Some (partition sdb sector_fat_other 3))
                   (fst (snd (value (scan 512 sector_fat_other
                                          (Some sdb)))))).
  { vm_compute. right. left. reflexivity. }
  split; [reflexivity |]. split; [reflexivity |]. split; [exact Hin |].
  apply (proj1 (@read_mbr_block_size nat (collaborators 512 sector_fat_other) sdb ([], 0) 0%nat 1%nat
                  sector_fat_other (partition sdb sector_fat_other 3)
                  eq_refl eq_refl Hin)).
Defined.

Lemma mbr_read_delegates_witness :
  block_size sda_0_bd = block_size (dev_bd sda)
  /\ mbr_read sda_0_bd sda 2048 [x00] 512 5 0%nat
     = call_read sda [x00] 512 2053 0%nat.
Proof.
  split; [reflexivity |].
  apply (proj2 (@mbr_read_delegates nat sda_0_bd sda 2048 [x00] 512 5 0%nat
                  eq_refl)); vm_compute; congruence.
Defined.

Lemma mbr_read_block_size_differs_witness :
  block_size sda_0_bd <> block_size (dev_bd sdb)
  /\ mbr_read sda_0_bd sdb 2048 [x00] 512 5 0%nat
     = mk_outcome (-1, [x00]) 0%nat
         [ev_printf (msg_block_size_differs 512 4096)].
Proof.
  assert (H : block_size sda_0_bd <> block_size (dev_bd sdb))
    by (vm_compute; congruence).
  split; [exact H |].
  apply (proj1 (@mbr_read_block_size_differs nat sda_0_bd sdb 2048 [x00]
                  512 5 0%nat H)).
Defined.

Lemma mbr_read_wraps_witness :
  block_size sda_0_bd = block_size (dev_bd sda)
  /\ 0 <= 4294967295 < 2 ^ 32
  /\ 0 <= 2048 < 2 ^ 32
  /\ hd_error (emitted (mbr_read sda_0_bd sda 2048 [x00] 512 4294967295
                                 0%nat))
     = Some (ev_read sda 512 2047).
Proof.
  assert (H1 : 0 <= 4294967295 < 2 ^ 32) by (vm_compute; split; congruence).
  assert (H2 : 0 <= 2048 < 2 ^ 32) by (vm_compute; split; congruence).
  split; [reflexivity |]. split; [exact H1 |]. split; [exact H2 |].
  apply (proj1 (@mbr_read_wraps nat sda_0_bd sda 2048 [x00] 512 4294967295
                  0%nat eq_refl H1 H2)).
Defined.

Lemma read_mbr_failure_witness :
  fst (value (scan 100 sector_ext2 (Some sda))) <> 0
  /\ snd (value (scan 100 sector_ext2 (Some sda))) = ([], 0)
  /\ scan_fails (ext := collaborators 100 sector_ext2) (Some sda) 0%nat.
Proof.
  assert (H : fst (value (scan 100 sector_ext2 (Some sda))) <> 0)
    by (vm_compute; congruence).
  pose proof (@read_mbr_failure nat (collaborators 100 sector_ext2) (Some sda)
                ([], 0) 0%nat) as T.
  split; [exact H |]. split.
  - exact (proj1 (proj2 (proj2 T H))).
  - exact (proj1 (proj1 T) H).
Defined.

Lemma driver_binding_by_type_code_witness :
  type_code sector_fat_other 1 <> 0
  /\ In (type_code sector_fat_other 1)
        [0x01; 0x04; 0x06; 0x0B; 0x0C; 0x0E; 0x11; 0x14; 0x1B; 0x1C; 0x1E]
  /\ emitted (load_partition (ext := collaborators 512 sector_fat_other)
                sda sector_fat_other 1 (repeat None 4, 0) 0%nat)
     = [ev_fat_init (partition sda sector_fat_other 1);
        ev_vfs_register fat_fs].
Proof.
  assert (H : type_code sector_fat_other 1 <> 0) by (vm_compute; congruence).
  assert (Hin : In (type_code sector_fat_other 1)
                   [0x01; 0x04; 0x06; 0x0B; 0x0C; 0x0E; 0x11; 0x14; 0x1B;
                    0x1C; 0x1E]).
  { vm_compute. do 4 right. left. reflexivity. }
  split; [exact H |]. split; [exact Hin |].
  apply (proj1 (proj1 (@driver_binding_by_type_code nat (collaborators 512 sector_fat_other) sda
                         sector_fat_other 1 (repeat None 4) 0 0%nat H)
                      Hin)).
Defined.

Lemma unbound_partition_is_kept_witness :
  block_read (Collaborators := collaborators 512 sector_ext2) sda 512 0 0%nat
  = ((512, sector_ext2), 1%nat)
  /\ has_signature sector_ext2 = true
  /\ type_code sector_ext2 0 <> 0
  /\ fst (value (scan 512 sector_ext2 (Some sda))) = 0
  /\ value (load_partition (ext := collaborators 512 sector_ext2)
              sda sector_ext2 0 (repeat None 4, 0) 1%nat)
     = ([Some (partition sda sector_ext2 0); None; None; None], 1).
Proof.
  assert (H : type_code sector_ext2 0 <> 0) by (vm_compute; congruence).
  pose proof (@unbound_partition_is_kept nat (collaborators 512 sector_ext2) sda ([], 0) 0%nat 1%nat
                sector_ext2 eq_refl eq_refl) as T.
  split; [reflexivity |]. split; [reflexivity |]. split; [exact H |].
  split.
  - exact (proj1 T).
  - exact (proj1 (proj2 (proj2 T) 0 (repeat None 4) 0 1%nat H)).
Defined.

Lemma read_mbr_error_values_witness :
  block_read (Collaborators := collaborators 100 sector_ext2) sda 512 0 0%nat
  = ((100, sector_ext2), 1%nat)
  /\ value (scan 100 sector_ext2 (Some sda)) = (-1, ([], 0))
  /\ value (scan 100 sector_ext2 None) = (-1, ([], 0)).
Proof.
  pose proof (@read_mbr_error_values nat (collaborators 100 sector_ext2) sda ([], 0)
                0%nat 1%nat 100 sector_ext2 eq_refl) as T.
  split; [reflexivity |]. split.
  - apply (proj1 (proj2 (proj2 (proj2 T)))); vm_compute; congruence.
  - exact (proj1 T).
Defined.

(** ** The scenarios of the spec *)

(** Entry 0 of type 0x83 from block 2048 on and three empty entries, on a
    parent named "sda": one device, "sda_0", with [start_block] 2048 and
    204800 blocks, and [ext2_init] called once, on that device. *)
Example scan_one_ext2_partition :
  value (scan 512 sector_ext2 (Some sda))
  = (0, ([Some (partition sda sector_ext2 0); None; None; None], 1))
  /\ device_name (dev_bd (partition sda sector_ext2 0)) = "sda_0"%string
  /\ mbr_fields (partition sda sector_ext2 0)
     = Some (0, 2048, 204800, 0x83)
  /\ filter is_binding_call (emitted (scan 512 sector_ext2 (Some sda)))
     = [ev_ext2_init (partition sda sector_ext2 0)].
Proof. repeat split. Qed.

(** Four empty entries under a valid signature: no device, no call of an
    initializer, and the scan returns 0. *)
Example scan_empty_table :
  scan 512 sector_empty (Some sda)
  = mk_outcome (0, ([None; None; None; None], 0)) 1%nat
      [ev_block_read sda 512 0; ev_printf (msg_found_mbr "sda");
       ev_printf (msg_found_total 0)].
Proof. reflexivity. Qed.

(** ** Where the code parts from the spec *)

(** Against C3: on a parent with 4096-byte blocks the scan returns devices
    with 512-byte blocks. *)
Lemma block_size_not_inherited :
  exists d : device nat,
    In (Some d) (fst (snd (value (scan 512 sector_fat_other (Some sdb)))))
    /\ block_size (dev_bd d) <> block_size (dev_bd sdb).
Proof.
  exists (partition sdb sector_fat_other 3). split.
  - vm_compute. right. left. reflexivity.
  - vm_compute. congruence.
Qed.

(** Against C8: an [ext2_init] that returns -1 after it has stored a
    filesystem leaves the device of slot 0 bound to that filesystem, and
    the filesystem is registered. *)
Lemma failing_initializer_binds :
  fst (fst (ext2_init_binds_and_fails (partition sda sector_ext2 0) 1%nat))
  = -1
  /\ fst (value (scan_binding 512 sector_ext2 (Some sda))) = 0
  /\ map (fun d => bd_fs (dev_bd d))
         (devices_of
            (fst (snd (value (scan_binding 512 sector_ext2 (Some sda))))))
     = [Some ext2_fs]
  /\ filter is_register_call
            (emitted (scan_binding 512 sector_ext2 (Some sda)))
     = [ev_vfs_register ext2_fs].
Proof. repeat split. Qed.

(** C2, which the code does not keep.  The buffer asked for a new device's
    name is never large enough for what is stored in it, whatever the
    parent's name: [strlen(parent->device_name + 2)] bytes, or a size that
    is not defined, against the parent's name, two characters and the
    terminator.  On a parent whose name has 24 characters, 22 bytes are
    asked for and 27 stored; on the heap of chunks the scan of a table
    with entries 1 and 3 in use returns 0 and two devices, with the
    [device_id]s of the single bytes 1 and 3, and both devices are named
    after the parent followed by "!", not by "_1" and "_3". *)
Theorem read_mbr_name_overrun :
  (forall parent_name : string, dev_name_fits parent_name = false)
  /\ dev_name_request long_name = Some 22
  /\ dev_name_bytes long_name = 27
  /\ fst (value (scan_chunked 512 sector_fat_other (Some long_disk))) = 0
  /\ snd (snd (value (scan_chunked 512 sector_fat_other (Some long_disk))))
     = 2
  /\ map (fun d => (device_name (dev_bd d), device_id (dev_bd d),
                    dev_id_len (dev_bd d)))
         (devices_of
            (fst (snd (value (scan_chunked 512 sector_fat_other
                                           (Some long_disk))))))
     = [("abcdefghijklmnopqrstuvwx!"%string, [1], 1);
        ("abcdefghijklmnopqrstuvwx!"%string, [3], 1)].
Proof.
  split; [exact dev_name_never_fits |]. repeat split.
Qed.

(** Against C9: a missing signature, a short read, a failed read and an
    absent parent can all come back as the same value, -1. *)
Lemma failures_share_a_value :
  fst (value (scan 512 sector_unsigned (Some sda))) = -1
  /\ fst (value (scan 100 sector_ext2 (Some sda)))
     = fst (value (scan 512 sector_unsigned (Some sda)))
  /\ fst (value (scan (-1) sector_ext2 (Some sda)))
     = fst (value (scan 512 sector_unsigned (Some sda)))
  /\ fst (value (scan 512 sector_ext2 None))
     = fst (value (scan 512 sector_unsigned (Some sda))).
Proof. repeat split. Qed.

(** ** More runs on the disk *)

Lemma call_read_stack_witness :
  block_sizes_agree sda_0_1 = true
  /\ 0 <= 5 < 2 ^ 32
  /\ value (call_read sda_0_1 [x00] 512 5 0%nat)
     = value (call_read sda [x00] 512 10245 0%nat).
Proof.
  assert (H : 0 <= 5 < 2 ^ 32) by (vm_compute; split; congruence).
  split; [reflexivity |]. split; [exact H |].
  apply (proj1 (@call_read_stack nat sda_0_1 [x00] 512 5 0%nat eq_refl H)).
Defined.

Lemma call_read_stack_mismatch_witness :
  block_sizes_agree sdb_1_0 = false
  /\ value (call_read sdb_1_0 [x00] 512 5 0%nat) = (-1, [x00])
  /\ final (call_read sdb_1_0 [x00] 512 5 0%nat) = 0%nat.
Proof.
  pose proof (@call_read_stack_mismatch nat sdb_1_0 [x00] 512 5 0%nat
                eq_refl) as T.
  split; [reflexivity |]. split.
  - exact (proj1 T).
  - exact (proj1 (proj2 T)).
Defined.

Lemma read_mbr_ids_differ_witness :
  block_read (Collaborators := collaborators 512 sector_fat_other) sda 512 0
             0%nat
  = ((512, sector_fat_other), 1%nat)
  /\ has_signature sector_fat_other = true
  /\ NoDup (map (fun d => device_id (dev_bd d))
                (devices_of
                   (fst (snd (value (scan 512 sector_fat_other
                                          (Some sda))))))).
Proof.
  split; [reflexivity |]. split; [reflexivity |].
  apply (proj2 (proj2 (@read_mbr_ids_differ nat
                         (collaborators 512 sector_fat_other) sda ([], 0)
                         0%nat 1%nat sector_fat_other eq_refl eq_refl))).
Defined.

Lemma read_mbr_partitions_witness :
  block_read (Collaborators := collaborators 512 sector_fat_other) sda 512 0
             0%nat
  = ((512, sector_fat_other), 1%nat)
  /\ has_signature sector_fat_other = true
  /\ Forall (fun d =>
               exists bd n s b t,
                 d = mbr_dev bd sda n s b t
                 /\ driver_name bd = "mbr"%string
                 /\ 0 <= n <= 3
                 /\ t = sector_byte sector_fat_other (0x1be + n * 0x10 + 4)
                 /\ 1 <= t <= 255
                 /\ (has_initializer d = false -> bd_fs bd = None))
            (devices_of
               (fst (snd (value (scan 512 sector_fat_other (Some sda)))))).
Proof.
  split; [reflexivity |]. split; [reflexivity |].
  apply (@read_mbr_partitions nat (collaborators 512 sector_fat_other)
           sda ([], 0) 0%nat 1%nat sector_fat_other eq_refl eq_refl).
Defined.

Lemma read_scanned_partition_witness :
  block_read (Collaborators := collaborators 512 sector_fat_other) sdb 512 0
             0%nat
  = ((512, sector_fat_other), 1%nat)
  /\ has_signature sector_fat_other = true
  /\ In (partition sdb sector_fat_other 3)
        (devices_of
           (fst (snd (value (scan 512 sector_fat_other (Some sdb))))))
  /\ block_size (dev_bd sdb) <> 512
  /\ call_read (partition sdb sector_fat_other 3) [x00] 512 5 7%nat
     = mk_outcome (-1, [x00]) 7%nat
         [ev_read (partition sdb sector_fat_other 3) 512 5;
          ev_printf (msg_block_size_differs 512 4096)].
Proof.
  assert (Hin : In (partition sdb sector_fat_other 3)
                   (devices_of
                      (fst (snd (value (scan 512 sector_fat_other
                                             (Some sdb))))))).
  { vm_compute. right. left. reflexivity. }
  assert (Hbs : block_size (dev_bd sdb) <> 512) by (vm_compute; congruence).
  split; [reflexivity |]. split; [reflexivity |]. split; [exact Hin |].
  split; [exact Hbs |].
  apply (proj2 (@read_scanned_partition nat
                  (collaborators 512 sector_fat_other) sdb ([], 0) 0%nat
                  1%nat sector_fat_other
                  (partition sdb sector_fat_other 3) [x00] 512 5 7%nat
                  eq_refl eq_refl Hin) Hbs).
Defined.

Lemma partitions_loop_bounds_witness :
  (2 <= 4)%nat
  /\ 0 <= snd (value (for_range 2 0
                        (load_partition
                           (ext := collaborators 512 sector_fat_other)
                           sda sector_fat_other)
                        (repeat None 4, 0) 1%nat))
       <= 2.
Proof.
  assert (H : (2 <= 4)%nat) by (repeat constructor).
  split; [exact H |].
  apply (proj1 (proj2 (@partitions_loop_bounds nat
                         (collaborators 512 sector_fat_other) sda
                         sector_fat_other 2 1%nat H))).
Defined.

Lemma read_mbr_initializer_calls_witness :
  block_read (Collaborators := collaborators 512 sector_fat_other) sda 512 0
             0%nat
  = ((512, sector_fat_other), 1%nat)
  /\ has_signature sector_fat_other = true
  /\ flat_map init_target (emitted (scan 512 sector_fat_other (Some sda)))
     = map (fun d => dev_set_fs d None)
           (filter has_initializer
              (devices_of
                 (fst (snd (value (scan 512 sector_fat_other
                                        (Some sda))))))).
Proof.
  split; [reflexivity |]. split; [reflexivity |].
  apply (@read_mbr_initializer_calls nat
           (collaborators 512 sector_fat_other) sda ([], 0) 0%nat 1%nat
           sector_fat_other eq_refl eq_refl).
Defined.

Lemma read_mbr_binding_order_witness :
  block_read (Collaborators := collaborators 512 sector_fat_other) sda 512 0
             0%nat
  = ((512, sector_fat_other), 1%nat)
  /\ has_signature sector_fat_other = true
  /\ filter is_binding_call (emitted (scan 512 sector_fat_other (Some sda)))
     = flat_map binding_calls_of
         (devices_of
            (fst (snd (value (scan 512 sector_fat_other (Some sda)))))).
Proof.
  split; [reflexivity |]. split; [reflexivity |].
  apply (@read_mbr_binding_order nat (collaborators 512 sector_fat_other)
           sda ([], 0) 0%nat 1%nat sector_fat_other eq_refl eq_refl).
Defined.
